(** * apt-subscription: the dashboard front end ([js/app.js])

    A shallow embedding of the decision logic of the housing-subscription
    dashboard: currency formatting, best-model selection, the filter/sort
    pipeline, the snapshot load and the hash-driven detail overlay.

    Conventions of the embedding.
    - JSON numbers of the snapshot are integer currency amounts and
      millisecond timestamps; they are embedded as [Z].  On integers below
      2^53 the double-precision operations the program uses ([Math.abs],
      [Math.floor] of a quotient, [%], [-], [>]) agree with the integer ones.
    - A property that may be absent or [null] is a [nullable].
    - Strings are byte strings; Hangul literals are their UTF-8 bytes.
    - [Number.prototype.toLocaleString] is taken in the page's locale
      (ko-KR, grouping by three with a comma, as en-US).
    - [Array.prototype.sort] is the stable sort ECMAScript specifies. *)

From Stdlib Require Import ZArith String Ascii List Lia Permutation Sorted Bool.
From stdpp Require Import base gmap list strings pretty.
Import ListNotations.

Local Open Scope string_scope.
Local Open Scope Z_scope.
Local Open Scope list_scope.

(** ** JavaScript values *)

Inductive nullable (A : Type) : Type :=
| Undefined
| Null
| Present (a : A).
Arguments Undefined {A}.
Arguments Null {A}.
Arguments Present {A} a.

(** [ToBoolean]: what [!v], [v || d] and [cond ? :] test. *)
Class Truthy (A : Type) := truthy : A -> bool.

#[export] Instance truthy_number : Truthy Z := fun z => negb (z =? 0).
#[export] Instance truthy_string : Truthy string :=
  fun s => match s with EmptyString => false | String _ _ => true end.
#[export] Instance truthy_array {A} : Truthy (list A) := fun _ => true.
#[export] Instance truthy_nullable {A} `{Truthy A} : Truthy (nullable A) :=
  fun v => match v with Present a => truthy a | _ => false end.

(** [v || d] where [d] has the type of the present values. *)
Definition or_else {A} `{Truthy A} (v : nullable A) (d : A) : A :=
  match v with
  | Present a => if truthy a then a else d
  | _ => d
  end.

(** [v !== 0] on a possibly missing number. *)
Definition strict_ne_zero (v : nullable Z) : bool :=
  match v with
  | Present z => negb (z =? 0)
  | _ => true
  end.

(** ** Number formatting of the runtime *)

(** [String(n)] for an integer [n]. *)
Definition Number_toString (n : Z) : string := pretty n.

(** Digits least significant first; a comma after every full group of three
    that is followed by more digits. *)
Fixpoint group3 (ds : list ascii) : list ascii :=
  match ds with
  | a :: b :: c :: rest =>
      match rest with
      | [] => ds
      | _ :: _ => a :: b :: c :: ","%char :: group3 rest
      end
  | _ => ds
  end.

Definition group_digits (s : string) : string :=
  string_of_list_ascii (rev (group3 (rev (list_ascii_of_string s)))).

(** [n.toLocaleString()] for an integer [n]. *)
Definition toLocaleString (n : Z) : string :=
  if n <? 0 then "-" +:+ group_digits (Number_toString (- n))
  else group_digits (Number_toString n).

(** ** Utilities of the program *)

(** [formatMoney] (app.js 452-466).  The guard [!amount && amount !== 0]
    holds of [undefined] and [null] and of no number. *)
Definition formatMoney (amount : nullable Z) : string :=
  if negb (truthy amount) && strict_ne_zero amount then "-"
  else
    match amount with
    | Present amount =>
        let absAmount := Z.abs amount in
        let sign := if amount <? 0 then "-" else EmptyString in
        if absAmount >=? 100000000 then
          let eok := absAmount / 100000000 in
          let man := (absAmount mod 100000000) / 10000 in
          sign +:+ Number_toString eok +:+ "억" +:+
            (if man >? 0 then " " +:+ toLocaleString man +:+ "만"
             else EmptyString)
        else if absAmount >=? 10000 then
          sign +:+ toLocaleString (absAmount / 10000) +:+ "만"
        else
          sign +:+ toLocaleString absAmount +:+ "원"
    | _ => "-" (* not reached: the guard above holds of a missing amount *)
    end.

(** ** Data model: the shape of [data/subscriptions.json] *)

Record Schedule := {
  receipt_start : nullable string;
  announcement_date : nullable string;
  winner_announce_date : nullable string
}.

Record Model := {
  housing_type : nullable string;
  supply_price : nullable Z;
  market_price : nullable Z;
  profit : nullable Z;
  price_source : nullable string
}.

Record Listing := {
  id : string;
  name : string;
  status : string;
  region : string;
  schedule : nullable Schedule;
  models : nullable (list Model);
  max_profit : nullable Z
}.

Record Snapshot := {
  items : nullable (list Listing);
  updated_at : nullable string
}.

(** Objects are always truthy. *)
#[export] Instance truthy_Schedule : Truthy Schedule := fun _ => true.
#[export] Instance truthy_Model : Truthy Model := fun _ => true.
#[export] Instance truthy_Listing : Truthy Listing := fun _ => true.

(** The object literal [{}]: every property reads [undefined]. *)
Definition empty_object : Schedule :=
  {| receipt_start := Undefined;
     announcement_date := Undefined;
     winner_announce_date := Undefined |}.

(** ** Best model (app.js 487-492) *)

(** The callback of [models.reduce]. *)
Definition better (best m : Model) : Model :=
  if or_else (profit m) 0 >? or_else (profit best) 0 then m else best.

Definition getBestModel (models : nullable (list Model)) : option Model :=
  match models with
  | Present ms =>
      match ms with
      | [] => None
      | m0 :: _ => Some (fold_left better ms m0)
      end
  | _ => None
  end.

(** ** Filters (app.js 409-419) *)

Record Filters := {
  filter_status : string;
  filter_region : string
}.

(** The module starts with [{ status: 'upcoming', region: 'all' }]. *)
Definition initial_filters : Filters :=
  {| filter_status := "upcoming"; filter_region := "all" |}.

(** The callback of [items.filter]. *)
Definition keep (activeFilters : Filters) (item : Listing) : bool :=
  let region_test :=
    if negb (String.eqb (filter_region activeFilters) "all")
       && negb (String.eqb (region item) (filter_region activeFilters))
    then false else true in
  if String.eqb (filter_status activeFilters) "upcoming" then
    if negb (String.eqb (status item) "접수예정")
       && negb (String.eqb (status item) "접수중")
    then false else region_test
  else if negb (String.eqb (filter_status activeFilters) "all")
          && negb (String.eqb (status item) (filter_status activeFilters))
  then false else region_test.

Definition applyFilters (activeFilters : Filters) (items : list Listing)
  : list Listing :=
  List.filter (keep activeFilters) items.

(** ** The runtime's sort *)

Section ArraySort.
Context {A : Type}.
Variable compareFn : A -> A -> Z.

(** [x] stood before every element of [l]: it moves behind [y] only when
    the comparator says [x] goes after [y]. *)
Fixpoint insert_sorted (x : A) (l : list A) : list A :=
  match l with
  | [] => [x]
  | y :: l' => if compareFn x y >? 0 then y :: insert_sorted x l' else x :: l
  end.

(** [Array.prototype.sort(compareFn)] as a function of the contents. *)
Fixpoint Array_sort (l : list A) : list A :=
  match l with
  | [] => []
  | x :: l' => insert_sorted x (Array_sort l')
  end.
End ArraySort.

(** ** Arrays as objects: a store of array contents

    [filter] and the spread [[...items]] allocate a new array; [sort] orders
    the array it is called on, in place, and returns that same array. *)

Definition ArrayM (A : Type) : Type :=
  gmap nat (list Listing) -> option (A * gmap nat (list Listing)).

#[export] Instance ArrayM_ret : MRet ArrayM := fun A a h => Some (a, h).
#[export] Instance ArrayM_bind : MBind ArrayM :=
  fun A B f m h =>
    match m h with
    | Some (a, h') => f a h'
    | None => None
    end.

Definition new_array (l : list Listing) : ArrayM nat :=
  fun h => let r := fresh (dom h) in Some (r, <[r:=l]> h).

Definition get_array (r : nat) : ArrayM (list Listing) :=
  fun h => match h !! r with
           | Some l => Some (l, h)
           | None => None
           end.

Definition set_array (r : nat) (l : list Listing) : ArrayM unit :=
  fun h => match h !! r with
           | Some _ => Some (tt, <[r:=l]> h)
           | None => None
           end.

(** [items.filter(callback)] *)
Definition Array_filter_ref (callback : Listing -> bool) (items : nat)
  : ArrayM nat :=
  l ← get_array items; new_array (List.filter callback l).

(** [[...items]] *)
Definition Array_spread_ref (items : nat) : ArrayM nat :=
  l ← get_array items; new_array l.

(** [arr.sort(compareFn)] *)
Definition Array_sort_ref (compareFn : Listing -> Listing -> Z) (arr : nat)
  : ArrayM nat :=
  l ← get_array arr; _ ← set_array arr (Array_sort compareFn l); mret arr.

Definition applyFilters_ref (activeFilters : Filters) (items : nat)
  : ArrayM nat :=
  Array_filter_ref (keep activeFilters) items.

(** ** Strings of the runtime *)

Fixpoint String_drop (n : nat) (s : string) : string :=
  match n, s with
  | O, _ => s
  | S n', String _ s' => String_drop n' s'
  | S _, EmptyString => EmptyString
  end.

(** [s.startsWith(p)] *)
Definition startsWith (s p : string) : bool := String.prefix p s.

(** [s.replace(pattern, replacement)] for a string pattern: only the first
    occurrence is replaced. *)
Fixpoint String_replace (pattern replacement s : string) : string :=
  if String.prefix pattern s then
    replacement +:+ String_drop (String.length pattern) s
  else
    match s with
    | EmptyString => EmptyString
    | String c s' => String c (String_replace pattern replacement s')
    end.

(** ** The page: module state, DOM writes, exceptions *)

Inductive exn :=
| Error (message : string)
| Rejection (reason : string)
| TypeError (message : string).

Inductive Result (A : Type) : Type :=
| Ok (a : A)
| Throw (e : exn).
Arguments Ok {A} a.
Arguments Throw {A} e.

(** What [createCard] puts on a card (app.js 126-164). *)
Record Card := {
  card_item : Listing;
  card_bestModel : option Model;
  card_profit : string
}.

(** The three contents [cardList.innerHTML] is ever given. *)
Inductive CardListHTML :=
| LoadFailedState
| NoMatchState
| CardsHTML (cards : list Card).

Inductive Effect :=
| ConsoleError (e : exn)
| SetText (element text : string)
| SetCardList (html : CardListHTML)
| SetDetailPanel (item : Listing)
| OverlayActive (on : bool)
| BodyOverflow (value : string)
| PushState.

(** The [let] bindings of the module, [window.location.hash], and the
    writes made to the page so far, oldest first. *)
Record AppState := {
  allItems : list Listing;
  activeFilters : Filters;
  activeSort : string;
  location_hash : string;
  effects : list Effect
}.

Definition initial_state (hash : string) : AppState :=
  {| allItems := [];
     activeFilters := initial_filters;
     activeSort := "date-asc";
     location_hash := hash;
     effects := [] |}.

Definition AppM (A : Type) : Type := AppState -> Result A * AppState.

#[export] Instance AppM_ret : MRet AppM := fun A a st => (Ok a, st).
#[export] Instance AppM_bind : MBind AppM :=
  fun A B f m st =>
    match m st with
    | (Ok a, st') => f a st'
    | (Throw e, st') => (Throw e, st')
    end.

Definition throw {A} (e : exn) : AppM A := fun st => (Throw e, st).

Definition try_catch (body : AppM unit) (handler : exn -> AppM unit)
  : AppM unit :=
  fun st =>
    match body st with
    | (Ok a, st') => (Ok a, st')
    | (Throw e, st') => handler e st'
    end.

(** [await p] for a promise that is already settled. *)
Definition await {A} (p : exn + A) : AppM A :=
  match p with
  | inl e => throw e
  | inr a => mret a
  end.

Definition get_state : AppM AppState := fun st => (Ok st, st).

Definition emit (e : Effect) : AppM unit :=
  fun st =>
    (Ok tt,
     {| allItems := allItems st;
        activeFilters := activeFilters st;
        activeSort := activeSort st;
        location_hash := location_hash st;
        effects := effects st ++ [e] |}).

Definition set_allItems (l : list Listing) : AppM unit :=
  fun st =>
    (Ok tt,
     {| allItems := l;
        activeFilters := activeFilters st;
        activeSort := activeSort st;
        location_hash := location_hash st;
        effects := effects st |}).

Definition set_location_hash (h : string) : AppM unit :=
  fun st =>
    (Ok tt,
     {| allItems := allItems st;
        activeFilters := activeFilters st;
        activeSort := activeSort st;
        location_hash := h;
        effects := effects st |}).

(** The settled [fetch]: a response carries its status and the outcome of
    [resp.json()]; [resp.ok] is a status in 200..299. *)
Record Response := {
  resp_status : Z;
  resp_json : exn + nullable Snapshot
}.

Definition resp_ok (resp : Response) : bool :=
  (200 <=? resp_status resp) && (resp_status resp <=? 299).

(** [v > 0] on a possibly missing number. *)
Definition gt_zero (v : nullable Z) : bool :=
  match v with
  | Present z => z >? 0
  | _ => false
  end.

(** [Math.max(...l)] for a non-empty [l]. *)
Definition Math_max (l : list Z) : Z :=
  match l with
  | [] => 0
  | x :: l' => fold_left Z.max l' x
  end.

Definition createCard (item : Listing) : Card :=
  {| card_item := item;
     card_bestModel := getBestModel (models item);
     card_profit :=
       if gt_zero (max_profit item) then formatMoney (max_profit item)
       else "시세 분석중" |}.

(** ** Dates and sorting (app.js 421-438, 468-476) *)

Section Dates.
(** [new Date(s).getTime()]; [None] is [NaN] (an invalid date). *)
Variable Date_getTime : string -> option Z.

(** [dateVal] (app.js 468-471). *)
Definition dateVal (dateStr : nullable string) : Z :=
  match dateStr with
  | Present s =>
      if negb (truthy s) then 0
      else match Date_getTime s with
           | Some t => if truthy t then t else 0
           | None => 0
           end
  | _ => 0
  end.

(** [bestDate] (app.js 473-476): each [||] passes over a 0. *)
Definition bestDate (item : Listing) : Z :=
  let s := or_else (schedule item) empty_object in
  let d1 := dateVal (receipt_start s) in
  if truthy d1 then d1
  else
    let d2 := dateVal (announcement_date s) in
    if truthy d2 then d2 else 0.

(** [(item.max_profit || 0)] *)
Definition maxProfitOf (item : Listing) : Z := or_else (max_profit item) 0.

(** [applySort] (app.js 421-438) as a function of the contents: [sorted] is
    the copy [[...items]]; a sort key outside the four cases leaves it as it
    is.  [applySort_ref] below is the same function on the store. *)
Definition applySort (activeSort : string) (items : list Listing)
  : list Listing :=
  let sorted := items in
  if String.eqb activeSort "profit-desc" then
    Array_sort (fun a b => maxProfitOf b - maxProfitOf a) sorted
  else if String.eqb activeSort "profit-asc" then
    Array_sort (fun a b => maxProfitOf a - maxProfitOf b) sorted
  else if String.eqb activeSort "date-asc" then
    Array_sort (fun a b => bestDate a - bestDate b) sorted
  else if String.eqb activeSort "date-desc" then
    Array_sort (fun a b => bestDate b - bestDate a) sorted
  else sorted.

(** What [renderCards] computes before drawing (app.js 102-103). *)
Definition view (activeFilters : Filters) (activeSort : string)
    (allItems : list Listing) : list Listing :=
  applySort activeSort (applyFilters activeFilters allItems).

Definition applySort_ref (activeSort : string) (items : nat) : ArrayM nat :=
  sorted ← Array_spread_ref items;
  if String.eqb activeSort "profit-desc" then
    _ ← Array_sort_ref (fun a b => maxProfitOf b - maxProfitOf a) sorted;
    mret sorted
  else if String.eqb activeSort "profit-asc" then
    _ ← Array_sort_ref (fun a b => maxProfitOf a - maxProfitOf b) sorted;
    mret sorted
  else if String.eqb activeSort "date-asc" then
    _ ← Array_sort_ref (fun a b => bestDate a - bestDate b) sorted;
    mret sorted
  else if String.eqb activeSort "date-desc" then
    _ ← Array_sort_ref (fun a b => bestDate b - bestDate a) sorted;
    mret sorted
  else mret sorted.

(** [applySort(applyFilters(allItems))] on the store. *)
Definition view_ref (activeFilters : Filters) (activeSort : string)
    (allItems : nat) : ArrayM nat :=
  filtered ← applyFilters_ref activeFilters allItems;
  applySort_ref activeSort filtered.

(** [renderCards] (app.js 100-124). *)
Definition renderCards : AppM unit :=
  st ← get_state;
  let filtered := applyFilters (activeFilters st) (allItems st) in
  let filtered := applySort (activeSort st) filtered in
  if (length filtered =? 0)%nat then emit (SetCardList NoMatchState)
  else emit (SetCardList (CardsHTML (map createCard filtered))).

(** [updateSummary] (app.js 48-61). *)
Definition updateSummary (data : Snapshot) : AppM unit :=
  let items := or_else (items data) [] in
  let count_status (s : string) :=
    length (List.filter (fun i => String.eqb (status i) s) items) in
  emit (SetText "totalCount" (Number_toString (Z.of_nat (length items))));;
  emit (SetText "upcomingCount"
          (Number_toString (Z.of_nat (count_status "접수예정"))));;
  emit (SetText "openCount"
          (Number_toString (Z.of_nat (count_status "접수중"))));;
  let maxP :=
    if (0 <? length items)%nat
    then Math_max (map (fun i => or_else (max_profit i) 0) items)
    else 0 in
  emit (SetText "maxProfit"
          (if maxP >? 0 then formatMoney (Present maxP) else "-")).

(** [loadData] (app.js 21-45), given how the fetch settled. *)
Definition loadData (fetched : exn + Response) : AppM unit :=
  try_catch
    (resp ← await fetched;
     if negb (resp_ok resp) then
       throw (Error ("HTTP " +:+ Number_toString (resp_status resp)))
     else
       data ← await (resp_json resp);
       match data with
       | Present data =>
           set_allItems (or_else (items data) []);;
           emit (SetText "updatedAt"
                   ("최종 업데이트: " +:+ or_else (updated_at data) "-"));;
           updateSummary data;;
           renderCards
       | _ => throw (TypeError "Cannot read properties of null")
       end)
    (fun e =>
       emit (ConsoleError e);;
       emit (SetCardList LoadFailedState)).

(** [openDetail] (app.js 167-180). *)
Definition openDetail (id' : string) : AppM unit :=
  st ← get_state;
  match List.find (fun i => String.eqb (id i) id') (allItems st) with
  | None => mret tt
  | Some item =>
      emit (SetDetailPanel item);;
      emit (OverlayActive true);;
      emit (BodyOverflow "hidden")
  end.

(** [closeDetail] (app.js 182-188); [pushState] to the bare path leaves
    no fragment. *)
Definition closeDetail : AppM unit :=
  emit (OverlayActive false);;
  emit (BodyOverflow EmptyString);;
  st ← get_state;
  if startsWith (location_hash st) "#detail/" then
    emit PushState;;
    set_location_hash EmptyString
  else mret tt.

(** [handleHashChange] (app.js 441-449). *)
Definition handleHashChange : AppM unit :=
  st ← get_state;
  let hash := location_hash st in
  if startsWith hash "#detail/" then
    let id' := String_replace "#detail/" EmptyString hash in
    openDetail id'
  else closeDetail.

(** The browser changes the fragment, then fires [hashchange]. *)
Definition hashchange (newHash : string) : AppM unit :=
  set_location_hash newHash;;
  handleHashChange.

(** [init] (app.js 14-19), without the event wiring. *)
Definition init (fetched : exn + Response) : AppM unit :=
  loadData fetched;;
  handleHashChange.
End Dates.

(** ** One date parser: the date-only form

    ECMAScript reads [YYYY-MM-DD] as midnight UTC of that day.  This parser
    accepts that form only and holds every other string for an invalid date;
    it instantiates [Date_getTime] in the closed examples. *)

Definition digit_of (c : ascii) : option Z :=
  let n := Z.of_nat (nat_of_ascii c) in
  if (48 <=? n) && (n <=? 57) then Some (n - 48) else None.

Fixpoint number_of (acc : Z) (cs : list ascii) : option Z :=
  match cs with
  | [] => Some acc
  | c :: cs' =>
      match digit_of c with
      | Some d => number_of (10 * acc + d) cs'
      | None => None
      end
  end.

Definition is_leap (y : Z) : bool :=
  ((y mod 4 =? 0) && negb (y mod 100 =? 0)) || (y mod 400 =? 0).

Definition days_in_month (y m : Z) : Z :=
  if m =? 2 then (if is_leap y then 29 else 28)
  else if (m =? 4) || (m =? 6) || (m =? 9) || (m =? 11) then 30
  else 31.

(** Days from 1970-01-01 to the given day of the proleptic Gregorian
    calendar. *)
Definition days_from_civil (y m d : Z) : Z :=
  let y' := if m <=? 2 then y - 1 else y in
  let era := y' / 400 in
  let yoe := y' - era * 400 in
  let mp := (m + 9) mod 12 in
  let doy := (153 * mp + 2) / 5 + d - 1 in
  let doe := yoe * 365 + yoe / 4 - yoe / 100 + doy in
  era * 146097 + doe - 719468.

Definition iso_getTime (s : string) : option Z :=
  match list_ascii_of_string s with
  | [y1; y2; y3; y4; s1; m1; m2; s2; d1; d2] =>
      if Ascii.eqb s1 "-"%char && Ascii.eqb s2 "-"%char then
        match number_of 0 [y1; y2; y3; y4], number_of 0 [m1; m2],
              number_of 0 [d1; d2] with
        | Some y, Some m, Some d =>
            if (1 <=? m) && (m <=? 12) && (1 <=? d) && (d <=? days_in_month y m)
            then Some (days_from_civil y m d * 86400000)
            else None
        | _, _, _ => None
        end
      else None
  | _ => None
  end.

(** * The design document's vocabulary

    Definitions written from the design document, to be compared with the
    program's. *)

(** The abbreviation rule, on a magnitude: hundred-millions, then the
    ten-thousands group of the remainder when it is not zero; else
    ten-thousands; else units. *)
Definition abbreviate (m : Z) : string :=
  if decide (100000000 <= m) then
    Number_toString (m / 100000000) +:+ "억" +:+
      (if decide ((m mod 100000000) / 10000 = 0) then EmptyString
       else " " +:+ toLocaleString ((m mod 100000000) / 10000) +:+ "만")
  else if decide (10000 <= m) then
    toLocaleString (m / 10000) +:+ "만"
  else
    toLocaleString m +:+ "원".

(** The rule applied to the magnitude, the sign put back in front. *)
Definition formatMoney_rule (amount : Z) : string :=
  (if decide (amount < 0) then "-" else EmptyString) +:+ abbreviate (Z.abs amount).

Definition strip_commas (l : list ascii) : list ascii :=
  List.filter (fun c => negb (Ascii.eqb c ","%char)) l.

(** The profit a model is compared by: a missing profit counts as 0. *)
Definition profitKey (m : Model) : Z :=
  match profit m with
  | Present z => z
  | _ => 0
  end.

(** A model that carries only a label and a profit. *)
Definition model_of (label : string) (p : nullable Z) : Model :=
  {| housing_type := Present label;
     supply_price := Undefined;
     market_price := Undefined;
     profit := p;
     price_source := Undefined |}.

(** The status filter alone: [upcoming] matches the two statuses of an
    offering still to come or open, [all] matches everything, any other value
    matches that status exactly. *)
Definition status_passes (wanted : string) (item : Listing) : bool :=
  if String.eqb wanted "upcoming" then
    String.eqb (status item) "접수예정" || String.eqb (status item) "접수중"
  else String.eqb wanted "all" || String.eqb (status item) wanted.

(** The region filter alone: [all], or that region exactly. *)
Definition region_passes (wanted : string) (item : Listing) : bool :=
  String.eqb wanted "all" || String.eqb (region item) wanted.

(** The profit a listing is sorted by: a missing [max_profit] counts as 0. *)
Definition maxProfitKey (item : Listing) : Z :=
  match max_profit item with
  | Present z => z
  | _ => 0
  end.

(** Non-decreasing in a key; with the key negated, non-increasing. *)
Definition ascending_by {A} (key : A -> Z) (a b : A) : Prop := key a <= key b.

Definition descending_by {A} (key : A -> Z) (a b : A) : Prop := key b <= key a.

Section DateVocabulary.
Variable Date_getTime : string -> option Z.

(** The timestamp of a date string, an unparseable one counted as the
    epoch. *)
Definition time_or_epoch (s : string) : Z :=
  match Date_getTime s with
  | Some t => t
  | None => 0
  end.

(** The reference date as the design document words it: the receipt-start
    date when present, else the announcement date, else the epoch. *)
Definition first_present_key (item : Listing) : Z :=
  let s := match schedule item with Present s => s | _ => empty_object end in
  match receipt_start s with
  | Present d => time_or_epoch d
  | _ =>
      match announcement_date s with
      | Present d => time_or_epoch d
      | _ => 0
      end
  end.

(** A date the program can order by: present, not empty, parsed by the
    runtime, and not the epoch instant itself. *)
Definition usable_time (d : nullable string) : option Z :=
  match d with
  | Present (String c s) =>
      match Date_getTime (String c s) with
      | Some t => if t =? 0 then None else Some t
      | None => None
      end
  | _ => None
  end.

(** The first usable of receipt-start and announcement date, else 0. *)
Definition reference_key (item : Listing) : Z :=
  let s := match schedule item with Present s => s | _ => empty_object end in
  match usable_time (receipt_start s) with
  | Some t => t
  | None =>
      match usable_time (announcement_date s) with
      | Some t => t
      | None => 0
      end
  end.
End DateVocabulary.

(** A listing that carries only an id, a status, a region, a profit and the
    two dates it is ordered by. *)
Definition listing_of (i st rg : string) (p : nullable Z)
    (receipt announcement : nullable string) : Listing :=
  {| id := i; name := i; status := st; region := rg;
     schedule := Present {| receipt_start := receipt;
                            announcement_date := announcement;
                            winner_announce_date := Undefined |};
     models := Undefined;
     max_profit := p |}.

(** The navigation state the fragment stands for. *)
Inductive NavState :=
| NavList
| NavDetail (listing_id : string).

Definition navState (hash : string) : NavState :=
  if startsWith hash "#detail/" then
    NavDetail (String_drop (String.length "#detail/") hash)
  else NavList.

(** What the rendering boundary can be handed. *)
Inductive RenderSignal :=
| ListViewModels (cards : list Card)
| EmptyState
| LoadFailure
| DetailViewModel (item : Listing)
| NotFound.

(** The signal a write to the page amounts to, if any.  No write of the
    program amounts to [NotFound]. *)
Definition signal_of (e : Effect) : option RenderSignal :=
  match e with
  | SetCardList (CardsHTML cards) => Some (ListViewModels cards)
  | SetCardList NoMatchState => Some EmptyState
  | SetCardList LoadFailedState => Some LoadFailure
  | SetDetailPanel item => Some (DetailViewModel item)
  | _ => None
  end.

Definition rendering_signals (es : list Effect) : list RenderSignal :=
  omap signal_of es.

(** The snapshot cannot be had: the fetch failed, or answered with a
    non-success status, or its body did not parse. *)
Definition snapshot_unavailable (fetched : exn + Response) : bool :=
  match fetched with
  | inl _ => true
  | inr resp =>
      negb (resp_ok resp)
      || match resp_json resp with
         | inl _ => true
         | inr _ => false
         end
  end.

Definition is_load_failure (e : Effect) : bool :=
  match e with
  | SetCardList LoadFailedState => true
  | _ => false
  end.

(** The state with more writes made to the page. *)
Definition with_effects (st : AppState) (es : list Effect) : AppState :=
  {| allItems := allItems st;
     activeFilters := activeFilters st;
     activeSort := activeSort st;
     location_hash := location_hash st;
     effects := effects st ++ es |}.

(** The state with another fragment. *)
Definition with_hash (st : AppState) (h : string) : AppState :=
  {| allItems := allItems st;
     activeFilters := activeFilters st;
     activeSort := activeSort st;
     location_hash := h;
     effects := effects st |}.

(** * More of the page

    The remaining handlers of [app.js], and the page as its writes leave
    it. *)

(** [getStatusClass] (app.js 478-485). *)
Definition getStatusClass (s : string) : string :=
  if String.eqb s "접수예정" then "upcoming"
  else if String.eqb s "접수중" then "open"
  else if String.eqb s "접수마감" then "closed"
  else "ended".

#[export] Instance truthy_bool : Truthy bool := fun b => b.

(** The zone flags of [item.regulations]. *)
Record Regulations := {
  is_speculative_zone : nullable bool;
  is_adjusted_zone : nullable bool;
  is_price_cap : nullable bool;
  is_public_zone : nullable bool
}.

(** One [regulation-badge] span: its severity class and its label. *)
Record Badge := {
  badge_severity : string;
  badge_label : string
}.

(** [buildRegulationBadges] (app.js 316-327): the spans appended between the
    tags of the wrapper, in the order they are appended. *)
Definition buildRegulationBadges (reg : Regulations) : list Badge :=
  let badges := [] in
  let badges :=
    if truthy (is_speculative_zone reg)
    then badges ++ [{| badge_severity := "severe"; badge_label := "투기과열지구" |}]
    else badges in
  let badges :=
    if truthy (is_adjusted_zone reg)
    then badges ++ [{| badge_severity := "moderate"; badge_label := "조정대상지역" |}]
    else badges in
  let badges :=
    if truthy (is_price_cap reg)
    then badges ++ [{| badge_severity := "moderate"; badge_label := "분양가상한제" |}]
    else badges in
  let badges :=
    if truthy (is_public_zone reg)
    then badges ++ [{| badge_severity := "mild"; badge_label := "공공주택지구" |}]
    else badges in
  let badges :=
    if negb (truthy (is_speculative_zone reg))
       && negb (truthy (is_adjusted_zone reg))
       && negb (truthy (is_price_cap reg))
       && negb (truthy (is_public_zone reg))
    then badges ++ [{| badge_severity := "mild"; badge_label := "비규제지역" |}]
    else badges in
  badges.

(** [activeFilters[filterType] = value]: a key other than the two the
    filter reads becomes a property nothing reads. *)
Definition assign_filter (activeFilters : Filters) (filterType value : string)
  : Filters :=
  if String.eqb filterType "status" then
    {| filter_status := value; filter_region := filter_region activeFilters |}
  else if String.eqb filterType "region" then
    {| filter_status := filter_status activeFilters; filter_region := value |}
  else activeFilters.

Definition set_activeFilters (f : Filters) : AppM unit :=
  fun st =>
    (Ok tt,
     {| allItems := allItems st;
        activeFilters := f;
        activeSort := activeSort st;
        location_hash := location_hash st;
        effects := effects st |}).

Definition set_activeSort (v : string) : AppM unit :=
  fun st =>
    (Ok tt,
     {| allItems := allItems st;
        activeFilters := activeFilters st;
        activeSort := v;
        location_hash := location_hash st;
        effects := effects st |}).

(** ** Assigning the fragment

    [location.hash = value] runs the URL parser on the value in its fragment
    state: tabs and newlines are dropped, and every byte of the UTF-8 form
    that is a control, is above [~], or is one of space, the double quote,
    [<], [>] and the backquote is written as [%] and two upper-case hex
    digits.  [location.hash] reads back the [#] and the fragment so written;
    the program never decodes it. *)

Definition hex_digit (n : nat) : ascii :=
  match n with
  | 0%nat => "0" | 1%nat => "1" | 2%nat => "2" | 3%nat => "3"
  | 4%nat => "4" | 5%nat => "5" | 6%nat => "6" | 7%nat => "7"
  | 8%nat => "8" | 9%nat => "9" | 10%nat => "A" | 11%nat => "B"
  | 12%nat => "C" | 13%nat => "D" | 14%nat => "E" | _ => "F"
  end%char.

Definition percent_encode (c : ascii) : string :=
  String "%"%char
    (String (hex_digit (nat_of_ascii c / 16))
       (String (hex_digit (nat_of_ascii c mod 16)) EmptyString)).

Definition is_tab_or_newline (c : ascii) : bool :=
  let n := nat_of_ascii c in
  ((n =? 9) || (n =? 10) || (n =? 13))%nat.

Definition in_fragment_encode_set (c : ascii) : bool :=
  let n := nat_of_ascii c in
  ((n <=? 31) || (127 <=? n)
   || (n =? 32) || (n =? 34) || (n =? 60) || (n =? 62) || (n =? 96))%nat.

Fixpoint fragment_encode (s : string) : string :=
  match s with
  | EmptyString => EmptyString
  | String c s' =>
      if is_tab_or_newline c then fragment_encode s'
      else if in_fragment_encode_set c
      then percent_encode c +:+ fragment_encode s'
      else String c (fragment_encode s')
  end.

(** What [location.hash] reads after [location.hash = value]: one leading
    [#] of the value is not part of the fragment, and an empty fragment
    reads as the empty string. *)
Definition assigned_hash (value : string) : string :=
  let input :=
    match value with
    | String c rest => if Ascii.eqb c "#"%char then rest else value
    | EmptyString => value
    end in
  match fragment_encode input with
  | EmptyString => EmptyString
  | String c f => String "#"%char (String c f)
  end.



(** What the user and the browser can do to the page once it is wired
    ([bindEvents], app.js 64-97; the card and close-button listeners, app.js
    118-123 and 179; the [hashchange] listener, app.js 18). *)
Inductive Event :=
| FilterClick (filterType value : string)
| SortChange (value : string)
| OverlayClick (onBackdrop : bool)
| KeyDown (key : string)
| CloseButtonClick
| CardClick (card_id : string)
| HashChange (newHash : string).

Section Events.
Variable Date_getTime : string -> option Z.

(** The click listener of a filter button (app.js 67-79), without the
    restyling of the buttons. *)
Definition filterClick (filterType value : string) : AppM unit :=
  st ← get_state;
  set_activeFilters (assign_filter (activeFilters st) filterType value);;
  renderCards Date_getTime.

(** The change listener of the sort select (app.js 83-86). *)
Definition sortChange (value : string) : AppM unit :=
  set_activeSort value;;
  renderCards Date_getTime.

(** The click listener of the overlay (app.js 89-91):
    [e.target === e.currentTarget] is a click on the backdrop itself. *)
Definition overlayClick (onBackdrop : bool) : AppM unit :=
  if onBackdrop then closeDetail else mret tt.

(** The keydown listener (app.js 94-96). *)
Definition keyDown (key : string) : AppM unit :=
  if String.eqb key "Escape" then closeDetail else mret tt.

(** The click listener of a card (app.js 119-122): the fragment is assigned,
    [location.hash] then reads [assigned_hash] of the value, and the browser
    fires [hashchange] when that changed the fragment. *)
Definition cardClick (card_id : string) : AppM unit :=
  st ← get_state;
  let newHash := assigned_hash ("#detail/" +:+ card_id) in
  if String.eqb (location_hash st) newHash then mret tt
  else hashchange newHash.

Definition dispatch (ev : Event) : AppM unit :=
  match ev with
  | FilterClick filterType value => filterClick filterType value
  | SortChange value => sortChange value
  | OverlayClick onBackdrop => overlayClick onBackdrop
  | KeyDown key => keyDown key
  | CloseButtonClick => closeDetail
  | CardClick card_id => cardClick card_id
  | HashChange newHash => hashchange newHash
  end.

(** The events one after the other. *)
Fixpoint dispatch_all (evs : list Event) : AppM unit :=
  match evs with
  | [] => mret tt
  | ev :: evs' => dispatch ev;; dispatch_all evs'
  end.
End Events.

(** ** The page as the writes leave it *)

(** Whether the overlay carries the class [active]: the last
    [classList.add] or [classList.remove]; a page starts without it. *)
Definition overlay_active (es : list Effect) : bool :=
  fold_left (fun acc e => match e with OverlayActive on => on | _ => acc end)
    es false.

(** [document.body.style.overflow]: the last value assigned. *)
Definition body_overflow (es : list Effect) : string :=
  fold_left (fun acc e => match e with BodyOverflow v => v | _ => acc end)
    es EmptyString.

(** The listing the detail panel was last filled with. *)
Definition detail_panel (es : list Effect) : option Listing :=
  fold_left (fun acc e => match e with SetDetailPanel item => Some item | _ => acc end)
    es None.

(** What the card list was last given. *)
Definition card_list (es : list Effect) : option CardListHTML :=
  fold_left (fun acc e => match e with SetCardList html => Some html | _ => acc end)
    es None.

(** The history entries pushed. *)
Definition pushes (es : list Effect) : nat :=
  length (List.filter (fun e => match e with PushState => true | _ => false end) es).

(** The first character is a minus sign. *)
Definition starts_with_minus (s : string) : bool :=
  match s with
  | String c _ => Ascii.eqb c "-"%char
  | EmptyString => false
  end.

(** How many of the four zone flags are set. *)
Definition flags_set (reg : Regulations) : nat :=
  (Nat.b2n (truthy (is_speculative_zone reg))
   + Nat.b2n (truthy (is_adjusted_zone reg))
   + Nat.b2n (truthy (is_price_cap reg))
   + Nat.b2n (truthy (is_public_zone reg)))%nat.

(** The page scroll is suspended exactly while the overlay is open. *)
Definition scroll_lock_matches_overlay (st : AppState) : Prop :=
  body_overflow (effects st)
  = if overlay_active (effects st) then "hidden" else EmptyString.

(** The overlay is open only under a detail fragment. *)
Definition overlay_under_detail_fragment (st : AppState) : Prop :=
  overlay_active (effects st) = true ->
  startsWith (location_hash st) "#detail/" = true.

(** While the overlay is open, the panel shows a listing of [allItems]. *)
Definition panel_shows_loaded_listing (st : AppState) : Prop :=
  overlay_active (effects st) = true ->
  exists item, detail_panel (effects st) = Some item /\ In item (allItems st).

Definition is_FilterClick (ev : Event) : bool :=
  match ev with FilterClick _ _ => true | _ => false end.

Definition is_SortChange (ev : Event) : bool :=
  match ev with SortChange _ => true | _ => false end.

(** What [renderCards] gives the card list for a sequence to show. *)
Definition cards_html (shown : list Listing) : CardListHTML :=
  if (length shown =? 0)%nat then NoMatchState
  else CardsHTML (map createCard shown).

Section PageLife.
Variable Date_getTime : string -> option Z.

(** The page after [init] on a fragment, and then some events. *)
Definition page_after (fetched : exn + Response) (hash : string)
    (evs : list Event) : AppState :=
  snd ((init Date_getTime fetched;; dispatch_all Date_getTime evs)
         (initial_state hash)).
End PageLife.

(** The listings of a document: [data.items || []]. *)
Definition items_of (data : Snapshot) : list Listing :=
  match items data with
  | Present l => l
  | _ => []
  end.

(** How many listings have a given status. *)
Definition count_status (s : string) (l : list Listing) : nat :=
  length (List.filter (fun i => String.eqb (status i) s) l).

(** The four writes of [updateSummary], in order. *)
Definition summary_tiles (data : Snapshot) : list Effect :=
  let maxP := if (0 <? length (items_of data))%nat
              then Math_max (map maxProfitOf (items_of data))
              else 0 in
  [SetText "totalCount"
     (Number_toString (Z.of_nat (length (items_of data))));
   SetText "upcomingCount"
     (Number_toString (Z.of_nat (count_status "접수예정" (items_of data))));
   SetText "openCount"
     (Number_toString (Z.of_nat (count_status "접수중" (items_of data))));
   SetText "maxProfit" (if maxP >? 0 then formatMoney (Present maxP) else "-")].

(** The first character is a decimal digit. *)
Definition starts_with_digit (s : string) : bool :=
  match s with
  | String c _ =>
      (48 <=? Z.of_nat (nat_of_ascii c)) && (Z.of_nat (nat_of_ascii c) <=? 57)
  | EmptyString => false
  end.

(** * Properties *)

(** ** Currency formatting *)

Lemma String_length_app (s1 s2 : string) :
  String.length (s1 +:+ s2) = (String.length s1 + String.length s2)%nat.
Proof. induction s1 as [|c s1 IH]; simpl; [reflexivity | now rewrite IH]. Qed.

Lemma strip_commas_group3 (ds : list ascii) :
  strip_commas (group3 ds) = strip_commas ds.
Proof.
  assert (H : forall n ds, (length ds <= n)%nat ->
                           strip_commas (group3 ds) = strip_commas ds).
  { clear ds. induction n as [|n IH]; intros ds Hn.
    - destruct ds; [reflexivity | simpl in Hn; lia].
    - destruct ds as [|a [|b [|c [|d rest]]]]; try reflexivity.
      change (group3 (a :: b :: c :: d :: rest))
        with (a :: b :: c :: ","%char :: group3 (d :: rest)).
      specialize (IH (d :: rest) ltac:(simpl in *; lia)).
      unfold strip_commas in *.
      cbn [List.filter]. rewrite IH. reflexivity. }
  apply (H (length ds)). lia.
Qed.

Lemma strip_commas_rev (l : list ascii) :
  strip_commas (rev l) = rev (strip_commas l).
Proof.
  unfold strip_commas. induction l as [|c l IH]; simpl; [reflexivity|].
  rewrite List.filter_app, IH. simpl.
  destruct (negb (Ascii.eqb c ",")); simpl; [reflexivity | now rewrite app_nil_r].
Qed.

(** Grouping only inserts commas: without them the digits are those of the
    plain numeral. *)
Lemma group_digits_strip (s : string) :
  strip_commas (list_ascii_of_string (group_digits s))
  = strip_commas (list_ascii_of_string s).
Proof.
  unfold group_digits. rewrite list_ascii_of_string_of_list_ascii.
  rewrite strip_commas_rev, strip_commas_group3, strip_commas_rev.
  now rewrite rev_involutive.
Qed.

Lemma guard_present (z : Z) :
  negb (truthy (Present z)) && strict_ne_zero (Present z) = false.
Proof.
  unfold truthy, truthy_nullable, truthy, truthy_number, strict_ne_zero.
  destruct (z =? 0); reflexivity.
Qed.

Lemma formatMoney_present_length (z : Z) :
  (3 <= String.length (formatMoney (Present z)))%nat.
Proof.
  unfold formatMoney.
  rewrite guard_present.
  cbv zeta. rewrite !Z.geb_leb, !Z.gtb_ltb.
  repeat match goal with |- context [if ?b then _ else _] => destruct b end;
    rewrite ?String_length_app; simpl; lia.
Qed.

(** C1, as amended: [formatMoney] answers the dash for a [null] or an
    [undefined] amount and for nothing else; zero is formatted as the amount
    it is, "0원", because the guard excepts it ([amount !== 0]). *)
Theorem formatMoney_dash_only_when_missing :
  formatMoney Null = "-"
  /\ formatMoney Undefined = "-"
  /\ formatMoney (Present 0) = "0원"
  /\ (forall amount : nullable Z,
        formatMoney amount = "-" <-> amount = Null \/ amount = Undefined).
Proof.
  split; [reflexivity|]. split; [reflexivity|]. split; [vm_compute; reflexivity|].
  intros [| |z]; split; intros H; auto.
  - pose proof (formatMoney_present_length z) as Hl. rewrite H in Hl.
    simpl in Hl. lia.
  - destruct H; discriminate.
Qed.

(** C1, as stated, fails at zero: the answer is not the dash and differs
    from the answer for [null]. *)
Lemma formatMoney_zero_is_not_dash :
  formatMoney (Present 0) = "0원"
  /\ formatMoney (Present 0) <> "-"
  /\ formatMoney (Present 0) <> formatMoney Null.
Proof. vm_compute. repeat split; discriminate. Qed.

Lemma formatMoney_eq_rule (amount : Z) :
  formatMoney (Present amount) = formatMoney_rule amount.
Proof.
  unfold formatMoney, formatMoney_rule, abbreviate.
  rewrite guard_present.
  cbv zeta. rewrite !Z.geb_leb, !Z.gtb_ltb.
  destruct (Z.ltb_spec amount 0); destruct (decide (amount < 0)); try lia;
  destruct (Z.leb_spec 100000000 (Z.abs amount));
    destruct (decide (100000000 <= Z.abs amount)); try lia.
  all: try (assert (0 <= Z.abs amount `mod` 100000000 / 10000)
              by (apply Z.div_pos; [apply Z.mod_pos_bound|]; lia);
            destruct (Z.ltb_spec 0 (Z.abs amount `mod` 100000000 / 10000));
            destruct (decide (Z.abs amount `mod` 100000000 / 10000 = 0));
            try lia; reflexivity).
  all: destruct (Z.leb_spec 10000 (Z.abs amount));
    destruct (decide (10000 <= Z.abs amount)); try lia; reflexivity.
Qed.


(** ** Best model *)

Lemma or_else_number (v : nullable Z) :
  or_else v 0 = match v with Present z => z | _ => 0 end.
Proof.
  destruct v as [| |z]; try reflexivity.
  unfold or_else, truthy, truthy_number.
  destruct (Z.eqb_spec z 0); simpl; congruence.
Qed.

Lemma better_profitKey (best m : Model) :
  better best m = if profitKey m >? profitKey best then m else best.
Proof. unfold better, profitKey. now rewrite !or_else_number. Qed.

(** The scan of [reduce]: the accumulator is the first maximum of the part
    already read. *)
Lemma fold_better_scan (ms pre : list Model) (best : Model) (i : nat) :
  pre !! i = Some best ->
  (forall j m, (j < i)%nat -> pre !! j = Some m -> profitKey m < profitKey best) ->
  (forall j m, pre !! j = Some m -> profitKey m <= profitKey best) ->
  exists i',
    (pre ++ ms) !! i' = Some (fold_left better ms best)
    /\ (forall j m, (j < i')%nat -> (pre ++ ms) !! j = Some m ->
                    profitKey m < profitKey (fold_left better ms best))
    /\ (forall j m, (pre ++ ms) !! j = Some m ->
                    profitKey m <= profitKey (fold_left better ms best)).
Proof.
  revert pre best i.
  induction ms as [|m ms IH]; intros pre best i Hi Hlt Hle.
  - exists i. rewrite app_nil_r. simpl. auto.
  - simpl. rewrite better_profitKey.
    replace (pre ++ m :: ms) with ((pre ++ [m]) ++ ms)
      by (rewrite <- app_assoc; reflexivity).
    destruct (Z.gtb_spec (profitKey m) (profitKey best)) as [Hgt|Hngt].
    + apply (IH (pre ++ [m]) m (length pre)).
      * rewrite lookup_app_r by lia. now rewrite Nat.sub_diag.
      * intros j x Hj Hx. rewrite lookup_app_l in Hx by lia.
        specialize (Hle j x Hx). lia.
      * intros j x Hx. destruct (decide (j < length pre)%nat) as [Hj|Hj].
        -- rewrite lookup_app_l in Hx by lia. specialize (Hle j x Hx). lia.
        -- rewrite lookup_app_r in Hx by lia.
           destruct (j - length pre)%nat as [|k]; simpl in Hx; [|discriminate].
           injection Hx as <-. lia.
    + apply (IH (pre ++ [m]) best i).
      * rewrite lookup_app_l; [assumption|]. now apply lookup_lt_Some in Hi.
      * intros j x Hj Hx. apply lookup_lt_Some in Hi.
        rewrite lookup_app_l in Hx by lia. eauto.
      * intros j x Hx. destruct (decide (j < length pre)%nat) as [Hj|Hj].
        -- rewrite lookup_app_l in Hx by lia. eauto.
        -- rewrite lookup_app_r in Hx by lia.
           destruct (j - length pre)%nat as [|k]; simpl in Hx; [|discriminate].
           injection Hx as <-. lia.
Qed.

Lemma getBestModel_scan (m0 : Model) (ms : list Model) :
  exists i best,
    getBestModel (Present (m0 :: ms)) = Some best
    /\ (m0 :: ms) !! i = Some best
    /\ (forall j m, (j < i)%nat -> (m0 :: ms) !! j = Some m ->
                    profitKey m < profitKey best)
    /\ (forall j m, (m0 :: ms) !! j = Some m -> profitKey m <= profitKey best).
Proof.
  destruct (fold_better_scan ms [m0] m0 0) as (i & Hi & Hlt & Hle).
  - reflexivity.
  - intros j m Hj. lia.
  - intros [|j] m Hm; simpl in Hm; [|discriminate]. injection Hm as <-. lia.
  - exists i, (fold_left better ms m0).
    assert (Hstep : fold_left better (m0 :: ms) m0 = fold_left better ms m0).
    { simpl. rewrite better_profitKey.
      now destruct (Z.gtb_spec (profitKey m0) (profitKey m0)); [lia|]. }
    unfold getBestModel. rewrite Hstep. auto.
Qed.

(** C2: on the empty sequence the answer is none; on a non-empty one it is
    the element at the first position of maximal profit: every earlier model
    has a strictly smaller profit and no model has a greater one, so a later
    model of equal profit does not replace it.  Of three models with profits
    5, 9, 9 the second is returned. *)
Theorem getBestModel_first_maximal :
  getBestModel (Present []) = None
  /\ (forall (m0 : Model) (ms : list Model),
        exists i best,
          getBestModel (Present (m0 :: ms)) = Some best
          /\ (m0 :: ms) !! i = Some best
          /\ (forall j m, (j < i)%nat -> (m0 :: ms) !! j = Some m ->
                          profitKey m < profitKey best)
          /\ (forall j m, (m0 :: ms) !! j = Some m ->
                          profitKey m <= profitKey best))
  /\ getBestModel
       (Present [model_of "A" (Present 5); model_of "B" (Present 9);
                 model_of "C" (Present 9)])
     = Some (model_of "B" (Present 9)).
Proof.
  split; [reflexivity|]. split; [exact getBestModel_scan|].
  vm_compute. reflexivity.
Qed.

(** C10: a [null] or [undefined] [models], like the empty array, gives none;
    otherwise the answer is an element of the array, compared with a missing
    or [null] profit counted as 0, and no element has a greater profit so
    counted; next to a model whose profit is absent the answer never has a
    negative profit. *)
Theorem getBestModel_total_missing_as_zero (models : nullable (list Model)) :
  (forall best m : Model,
      better best m = if profitKey m >? profitKey best then m else best)
  /\ match models with
     | Present (m0 :: ms) =>
         exists best,
           getBestModel models = Some best
           /\ In best (m0 :: ms)
           /\ (forall m, In m (m0 :: ms) -> profitKey m <= profitKey best)
           /\ (forall m, In m (m0 :: ms) ->
                  profit m = Null \/ profit m = Undefined ->
                  forall z, profit best = Present z -> 0 <= z)
     | _ => getBestModel models = None
     end.
Proof.
  split; [exact better_profitKey|].
  destruct models as [| |[|m0 ms]]; try reflexivity.
  destruct (getBestModel_scan m0 ms) as (i & best & Hbest & Hi & _ & Hle).
  exists best. split; [assumption|].
  assert (Hmax : forall m, In m (m0 :: ms) -> profitKey m <= profitKey best).
  { intros m Hm. apply list_elem_of_In in Hm.
    apply list_elem_of_lookup in Hm as [j Hj]. eauto. }
  split; [|split; [exact Hmax|]].
  - apply list_elem_of_In. apply list_elem_of_lookup. eauto.
  - intros m Hm Hmissing z Hz. specialize (Hmax m Hm).
    unfold profitKey in Hmax. rewrite Hz in Hmax.
    destruct Hmissing as [Hp|Hp]; rewrite Hp in Hmax; assumption.
Qed.

(** ** Filters *)

Lemma keep_is_conjunction (activeFilters : Filters) (item : Listing) :
  keep activeFilters item
  = status_passes (filter_status activeFilters) item
    && region_passes (filter_region activeFilters) item.
Proof.
  unfold keep, status_passes, region_passes.
  destruct (String.eqb (filter_status activeFilters) "upcoming");
    destruct (String.eqb (filter_status activeFilters) "all");
    destruct (String.eqb (filter_region activeFilters) "all");
    destruct (String.eqb (status item) "접수예정");
    destruct (String.eqb (status item) "접수중");
    destruct (String.eqb (status item) (filter_status activeFilters));
    destruct (String.eqb (region item) (filter_region activeFilters));
    reflexivity.
Qed.

Lemma filter_conjunction {A} (p q : A -> bool) (l : list A) :
  List.filter (fun x => p x && q x) l = List.filter q (List.filter p l).
Proof.
  induction l as [|x l IH]; simpl; [reflexivity|].
  destruct (p x); simpl; [destruct (q x)|]; now rewrite IH.
Qed.

Lemma filter_all_true {A} (p : A -> bool) (l : list A) :
  (forall x, In x l -> p x = true) -> List.filter p l = l.
Proof.
  induction l as [|x l IH]; intros H; simpl; [reflexivity|].
  rewrite (H x) by (left; reflexivity).
  f_equal. apply IH. intros y Hy. apply H. right; assumption.
Qed.

(** C4: with the status filter [upcoming] a listing is retained exactly when
    its status is one of the two statuses 접수예정 (upcoming) and 접수중
    (open), next to the region test; the region filter [all] retains every
    item the status filter lets through, and with both filters [all] the
    sequence comes back whole; in general an item is retained exactly when it
    passes the status filter and the region filter, and filtering by both is
    filtering by one after the other. *)
Theorem applyFilters_conjunction (items : list Listing) :
  (forall (r : string) (item : Listing),
      In item (applyFilters {| filter_status := "upcoming"; filter_region := r |} items)
      <-> In item items
          /\ (status item = "접수예정" \/ status item = "접수중")
          /\ (r = "all" \/ region item = r))
  /\ (forall item : Listing,
        In item (applyFilters {| filter_status := "upcoming"; filter_region := "all" |} items)
        <-> In item items
            /\ (status item = "접수예정" \/ status item = "접수중"))
  /\ (forall s : string,
        applyFilters {| filter_status := s; filter_region := "all" |} items
        = List.filter (status_passes s) items)
  /\ applyFilters {| filter_status := "all"; filter_region := "all" |} items = items
  /\ (forall activeFilters : Filters,
        applyFilters activeFilters items
        = List.filter
            (fun item => status_passes (filter_status activeFilters) item
                         && region_passes (filter_region activeFilters) item)
            items
        /\ applyFilters activeFilters items
          = List.filter (region_passes (filter_region activeFilters))
              (List.filter (status_passes (filter_status activeFilters)) items)
        /\ (forall item : Listing,
              In item (applyFilters activeFilters items)
              <-> In item items
                  /\ status_passes (filter_status activeFilters) item = true
                  /\ region_passes (filter_region activeFilters) item = true)).
Proof.
  assert (Hup : forall (r : string) (item : Listing),
      In item (applyFilters {| filter_status := "upcoming"; filter_region := r |} items)
      <-> In item items
          /\ (status item = "접수예정" \/ status item = "접수중")
          /\ (r = "all" \/ region item = r)).
  { intros r item. unfold applyFilters. rewrite List.filter_In, keep_is_conjunction.
    unfold status_passes, region_passes. cbn [filter_status filter_region].
    change (String.eqb "upcoming" "upcoming") with true. cbv iota.
    rewrite andb_true_iff, !orb_true_iff, !String.eqb_eq. tauto. }
  split; [exact Hup|]. split.
  { intros item. rewrite Hup. tauto. }
  split.
  { intros s. unfold applyFilters. apply List.filter_ext. intros item.
    rewrite keep_is_conjunction. unfold region_passes. cbn [filter_status filter_region].
    change (String.eqb "all" "all") with true. simpl. apply andb_true_r. }
  split.
  { unfold applyFilters. apply filter_all_true. intros item _. reflexivity. }
  intros activeFilters.
  assert (Hconj : applyFilters activeFilters items
        = List.filter
            (fun item => status_passes (filter_status activeFilters) item
                         && region_passes (filter_region activeFilters) item)
            items).
  { unfold applyFilters. apply List.filter_ext. intros item.
    apply keep_is_conjunction. }
  split; [exact Hconj|]. split.
  - rewrite Hconj. apply filter_conjunction.
  - intros item. rewrite Hconj, List.filter_In, andb_true_iff. tauto.
Qed.

(** ** The runtime's sort, for a comparator that subtracts keys *)

Section SortFacts.
Context {A : Type}.
Variable compareFn : A -> A -> Z.
Variable key : A -> Z.
Hypothesis compare_key : forall a b, compareFn a b = key a - key b.

Lemma insert_sorted_perm (x : A) (l : list A) :
  Permutation (insert_sorted compareFn x l) (x :: l).
Proof.
  induction l as [|y l IH]; simpl; [reflexivity|].
  destruct (compareFn x y >? 0); [|reflexivity].
  rewrite IH. apply perm_swap.
Qed.

Lemma Array_sort_perm (l : list A) : Permutation (Array_sort compareFn l) l.
Proof.
  induction l as [|x l IH]; simpl; [reflexivity|].
  rewrite insert_sorted_perm. now apply perm_skip.
Qed.

Lemma insert_sorted_ascending (x : A) (l : list A) :
  StronglySorted (ascending_by key) l ->
  StronglySorted (ascending_by key) (insert_sorted compareFn x l).
Proof.
  induction 1 as [|y l Hs IH Hy]; simpl.
  - repeat constructor.
  - rewrite compare_key.
    destruct (Z.gtb_spec (key x - key y) 0) as [Hgt|Hle].
    + constructor; [assumption|].
      apply (Permutation_Forall (Permutation_sym (insert_sorted_perm x l))).
      constructor; [unfold ascending_by; lia | assumption].
    + constructor; [constructor; assumption|].
      constructor; [unfold ascending_by; lia|].
      eapply Forall_impl; [exact Hy|].
      unfold ascending_by. intros z Hz. lia.
Qed.

Lemma Array_sort_ascending (l : list A) :
  StronglySorted (ascending_by key) (Array_sort compareFn l).
Proof.
  induction l as [|x l IH]; simpl; [constructor|].
  now apply insert_sorted_ascending.
Qed.

(** An element only ever moves past elements of another key. *)
Lemma insert_sorted_stable (k : Z) (x : A) (l : list A) :
  List.filter (fun a => key a =? k) (insert_sorted compareFn x l)
  = List.filter (fun a => key a =? k) (x :: l).
Proof.
  induction l as [|y l IH]; [reflexivity|].
  cbn [insert_sorted]. rewrite compare_key.
  destruct (Z.gtb_spec (key x - key y) 0) as [Hgt|Hle]; [|reflexivity].
  cbn [List.filter] in *. rewrite IH.
  destruct (Z.eqb_spec (key x) k), (Z.eqb_spec (key y) k);
    try reflexivity; lia.
Qed.

Lemma Array_sort_stable (k : Z) (l : list A) :
  List.filter (fun a => key a =? k) (Array_sort compareFn l)
  = List.filter (fun a => key a =? k) l.
Proof.
  induction l as [|x l IH]; [reflexivity|].
  cbn [Array_sort]. rewrite insert_sorted_stable.
  cbn [List.filter]. now rewrite IH.
Qed.

Lemma Array_sort_sorted_id (l : list A) :
  StronglySorted (ascending_by key) l -> Array_sort compareFn l = l.
Proof.
  induction 1 as [|x l Hs IH Hx]; [reflexivity|].
  cbn [Array_sort]. rewrite IH.
  destruct l as [|y l]; [reflexivity|].
  cbn [insert_sorted]. rewrite compare_key.
  apply Forall_inv in Hx. unfold ascending_by in Hx.
  destruct (Z.gtb_spec (key x - key y) 0); [lia | reflexivity].
Qed.

Lemma Array_sort_idempotent (l : list A) :
  Array_sort compareFn (Array_sort compareFn l) = Array_sort compareFn l.
Proof. apply Array_sort_sorted_id, Array_sort_ascending. Qed.

Lemma filter_key_head (k : Z) (x : A) (l : list A) :
  key x = k ->
  List.filter (fun a => key a =? k) (x :: l)
  = x :: List.filter (fun a => key a =? k) l.
Proof. intros <-. cbn [List.filter]. now rewrite Z.eqb_refl. Qed.

Lemma filter_key_skip (k : Z) (x : A) (l : list A) :
  key x <> k ->
  List.filter (fun a => key a =? k) (x :: l)
  = List.filter (fun a => key a =? k) l.
Proof.
  intros Hne. cbn [List.filter].
  destruct (Z.eqb_spec (key x) k); [contradiction | reflexivity].
Qed.

Lemma head_key_least (x : A) (l : list A) (y : A) :
  StronglySorted (ascending_by key) (x :: l) -> In y (x :: l) -> key x <= key y.
Proof.
  intros Hs [<-|Hy]; [lia|].
  apply StronglySorted_inv in Hs as [_ Hx].
  rewrite List.Forall_forall in Hx. exact (Hx y Hy).
Qed.

Lemma in_by_key_class (l1 l2 : list A) (y : A) :
  (forall k, List.filter (fun a => key a =? k) l1
             = List.filter (fun a => key a =? k) l2) ->
  In y l1 -> In y l2.
Proof.
  intros Hcls Hy.
  assert (In y (List.filter (fun a => key a =? key y) l1)) as H
    by (apply List.filter_In; split; [assumption | apply Z.eqb_refl]).
  rewrite Hcls in H. now apply List.filter_In in H.
Qed.

(** Two ascending sequences with the same items of each key, in the same
    order, are the same sequence: the outcome of a stable sort does not
    depend on the algorithm that computes it. *)
Lemma stable_sorted_unique (l1 l2 : list A) :
  StronglySorted (ascending_by key) l1 ->
  StronglySorted (ascending_by key) l2 ->
  (forall k, List.filter (fun a => key a =? k) l1
             = List.filter (fun a => key a =? k) l2) ->
  l1 = l2.
Proof.
  revert l2. induction l1 as [|x l1 IH]; intros l2 Hs1 Hs2 Hcls.
  - destruct l2 as [|y l2]; [reflexivity|].
    specialize (Hcls (key y)). rewrite filter_key_head in Hcls by reflexivity.
    discriminate.
  - destruct l2 as [|y l2].
    { specialize (Hcls (key x)). rewrite filter_key_head in Hcls by reflexivity.
      discriminate. }
    assert (key x = key y) as Hxy.
    { assert (key y <= key x)
        by (apply (head_key_least y l2 x Hs2),
              (in_by_key_class (x :: l1) (y :: l2)); [exact Hcls | now left]).
      assert (key x <= key y)
        by (apply (head_key_least x l1 y Hs1),
              (in_by_key_class (y :: l2) (x :: l1)); [now symmetry | now left]).
      lia. }
    pose proof (Hcls (key x)) as Hhead.
    rewrite filter_key_head in Hhead by reflexivity.
    rewrite filter_key_head in Hhead by (symmetry; exact Hxy).
    injection Hhead as -> Htail.
    f_equal. apply IH.
    + now apply StronglySorted_inv in Hs1.
    + now apply StronglySorted_inv in Hs2.
    + intros k. destruct (Z.eq_dec (key y) k) as [<-|Hne]; [exact Htail|].
      specialize (Hcls k). now rewrite !filter_key_skip in Hcls by assumption.
Qed.

(** So [Array_sort] is the stable sort by the key, whichever way the engine
    sorts. *)
Lemma Array_sort_characterised (l sorted : list A) :
  StronglySorted (ascending_by key) sorted ->
  (forall k, List.filter (fun a => key a =? k) sorted
             = List.filter (fun a => key a =? k) l) ->
  sorted = Array_sort compareFn l.
Proof.
  intros Hs Hcls. apply stable_sorted_unique; [assumption|apply Array_sort_ascending|].
  intros k. now rewrite Array_sort_stable.
Qed.
End SortFacts.

Lemma StronglySorted_weaken {A} (R S : A -> A -> Prop) (l : list A) :
  (forall a b, R a b -> S a b) -> StronglySorted R l -> StronglySorted S l.
Proof.
  intros HRS. induction 1 as [|x l Hs IH Hx]; constructor; [assumption|].
  eapply Forall_impl; [exact Hx|]. auto.
Qed.

(** ** Sorting the listings *)

Section PipelineFacts.
Variable Date_getTime : string -> option Z.

Lemma maxProfitOf_key (item : Listing) : maxProfitOf item = maxProfitKey item.
Proof. unfold maxProfitOf, maxProfitKey. apply or_else_number. Qed.

Lemma dateVal_usable (d : nullable string) :
  dateVal Date_getTime d
  = match usable_time Date_getTime d with Some t => t | None => 0 end.
Proof.
  destruct d as [| |[|c s]]; try reflexivity.
  unfold dateVal, usable_time, truthy, truthy_string, truthy_number.
  cbn [negb]. destruct (Date_getTime (String c s)) as [t|]; [|reflexivity].
  destruct (Z.eqb_spec t 0); simpl; congruence.
Qed.

Lemma usable_time_nonzero (d : nullable string) (t : Z) :
  usable_time Date_getTime d = Some t -> t <> 0.
Proof.
  destruct d as [| |[|c s]]; try discriminate. unfold usable_time.
  destruct (Date_getTime (String c s)) as [t'|]; [|discriminate].
  destruct (Z.eqb_spec t' 0); [discriminate|]. congruence.
Qed.

Lemma bestDate_eq_reference_key (item : Listing) :
  bestDate Date_getTime item = reference_key Date_getTime item.
Proof.
  unfold bestDate, reference_key.
  replace (or_else (schedule item) empty_object)
    with (match schedule item with Present s => s | _ => empty_object end)
    by (destruct (schedule item); reflexivity).
  cbv zeta. rewrite !dateVal_usable.
  set (s := match schedule item with Present s => s | _ => empty_object end).
  destruct (usable_time Date_getTime (receipt_start s)) as [t1|] eqn:H1.
  - apply usable_time_nonzero in H1. unfold truthy, truthy_number.
    destruct (Z.eqb_spec t1 0); [contradiction | reflexivity].
  - change (truthy 0) with false. cbv iota.
    destruct (usable_time Date_getTime (announcement_date s)) as [t2|] eqn:H2;
      [|reflexivity].
    apply usable_time_nonzero in H2. unfold truthy, truthy_number.
    destruct (Z.eqb_spec t2 0); [contradiction | reflexivity].
Qed.

(** Every sort key is a stable sort by a key, or leaves the order alone. *)
Lemma applySort_shape (activeSort : string) :
  (exists (compareFn : Listing -> Listing -> Z) (key : Listing -> Z),
      (forall a b, compareFn a b = key a - key b)
      /\ forall l, applySort Date_getTime activeSort l = Array_sort compareFn l)
  \/ (forall l, applySort Date_getTime activeSort l = l).
Proof.
  unfold applySort.
  destruct (String.eqb activeSort "profit-desc").
  { left. eexists _, (fun a => - maxProfitOf a). split; [|reflexivity].
    intros a b. simpl. lia. }
  destruct (String.eqb activeSort "profit-asc").
  { left. eexists _, maxProfitOf. split; [|reflexivity]. reflexivity. }
  destruct (String.eqb activeSort "date-asc").
  { left. eexists _, (bestDate Date_getTime). split; [|reflexivity]. reflexivity. }
  destruct (String.eqb activeSort "date-desc").
  { left. eexists _, (fun a => - bestDate Date_getTime a). split; [|reflexivity].
    intros a b. simpl. lia. }
  right. reflexivity.
Qed.

Lemma applySort_perm (activeSort : string) (l : list Listing) :
  Permutation (applySort Date_getTime activeSort l) l.
Proof.
  destruct (applySort_shape activeSort) as [(c & k & _ & ->)| ->];
    [apply Array_sort_perm | reflexivity].
Qed.

Lemma applySort_idempotent (activeSort : string) (l : list Listing) :
  applySort Date_getTime activeSort (applySort Date_getTime activeSort l)
  = applySort Date_getTime activeSort l.
Proof.
  destruct (applySort_shape activeSort) as [(c & k & Hk & H)|H];
    rewrite !H; [|reflexivity].
  now apply (Array_sort_idempotent c k).
Qed.

Lemma applyFilters_fixes_view (activeFilters : Filters) (activeSort : string)
    (l : list Listing) :
  applyFilters activeFilters (view Date_getTime activeFilters activeSort l)
  = view Date_getTime activeFilters activeSort l.
Proof.
  unfold view, applyFilters at 1. apply filter_all_true. intros x Hx.
  apply (Permutation_in _ (applySort_perm _ _)) in Hx.
  unfold applyFilters in Hx. now apply List.filter_In in Hx.
Qed.

Lemma view_idempotent (activeFilters : Filters) (activeSort : string)
    (l : list Listing) :
  view Date_getTime activeFilters activeSort
    (view Date_getTime activeFilters activeSort l)
  = view Date_getTime activeFilters activeSort l.
Proof.
  unfold view at 1. rewrite applyFilters_fixes_view.
  unfold view. apply applySort_idempotent.
Qed.

Lemma profit_desc_is_sort (l : list Listing) :
  applySort Date_getTime "profit-desc" l
  = Array_sort (fun a b => maxProfitOf b - maxProfitOf a) l.
Proof. reflexivity. Qed.

Lemma profit_desc_stable (k : Z) (l : list Listing) :
  List.filter (fun i => maxProfitKey i =? k) (applySort Date_getTime "profit-desc" l)
  = List.filter (fun i => maxProfitKey i =? k) l.
Proof.
  rewrite profit_desc_is_sort.
  pose proof (Array_sort_stable (fun a b => maxProfitOf b - maxProfitOf a)
                (fun a => - maxProfitOf a) ltac:(intros; simpl; lia) (- k) l) as H.
  assert (Hext : forall i : Listing,
             (maxProfitKey i =? k) = (- maxProfitOf i =? - k)).
  { intros i. rewrite maxProfitOf_key.
    destruct (Z.eqb_spec (maxProfitKey i) k),
             (Z.eqb_spec (- maxProfitKey i) (- k)); try reflexivity; lia. }
  rewrite !(List.filter_ext _ _ Hext). exact H.
Qed.

(** C5: sorting by [profit-desc] rearranges the input without losing or
    adding an item, leaves the profits (a missing [max_profit] counted as 0)
    non-increasing, and is stable: the items of any one profit stand in their
    input order, after the sort alone and after the filter-then-sort pass;
    a second pass over the result of the first changes nothing. *)
Theorem applySort_profit_desc_stable (items : list Listing) :
  let sorted := applySort Date_getTime "profit-desc" items in
  Permutation sorted items
  /\ StronglySorted (descending_by maxProfitKey) sorted
  /\ (forall k : Z,
        List.filter (fun i => maxProfitKey i =? k) sorted
        = List.filter (fun i => maxProfitKey i =? k) items)
  /\ (forall (activeFilters : Filters) (k : Z),
        List.filter (fun i => maxProfitKey i =? k)
          (view Date_getTime activeFilters "profit-desc" items)
        = List.filter (fun i => maxProfitKey i =? k)
            (applyFilters activeFilters items))
  /\ (forall activeFilters : Filters,
        view Date_getTime activeFilters "profit-desc"
          (view Date_getTime activeFilters "profit-desc" items)
        = view Date_getTime activeFilters "profit-desc" items).
Proof.
  cbv zeta. split; [apply applySort_perm|]. split.
  { rewrite profit_desc_is_sort.
    eapply StronglySorted_weaken;
      [|apply (Array_sort_ascending _ (fun a => - maxProfitOf a));
        intros; simpl; lia].
    unfold ascending_by, descending_by. intros a b.
    rewrite !maxProfitOf_key. lia. }
  split; [intros k; apply profit_desc_stable|]. split.
  - intros activeFilters k. unfold view. apply profit_desc_stable.
  - intros activeFilters. apply view_idempotent.
Qed.

(** C7, as amended: the date sort keys order the listings by [bestDate],
    which is the timestamp of the first usable date among receipt-start and
    announcement date, usable meaning present, not empty, parsed by the
    runtime and not the epoch instant itself, and 0 when neither is usable;
    [date-asc] leaves these keys non-decreasing, [date-desc]
    non-increasing. *)
Theorem bestDate_first_usable_date (item : Listing) (items : list Listing) :
  bestDate Date_getTime item = reference_key Date_getTime item
  /\ (usable_time Date_getTime
        (receipt_start (or_else (schedule item) empty_object)) = None ->
      usable_time Date_getTime
        (announcement_date (or_else (schedule item) empty_object)) = None ->
      bestDate Date_getTime item = 0)
  /\ StronglySorted (ascending_by (reference_key Date_getTime))
       (applySort Date_getTime "date-asc" items)
  /\ StronglySorted (descending_by (reference_key Date_getTime))
       (applySort Date_getTime "date-desc" items).
Proof.
  split; [apply bestDate_eq_reference_key|]. split.
  { intros H1 H2. rewrite bestDate_eq_reference_key. unfold reference_key.
    replace (match schedule item with Present s => s | _ => empty_object end)
      with (or_else (schedule item) empty_object)
      by (destruct (schedule item); reflexivity).
    cbv zeta. now rewrite H1, H2. }
  split.
  - change (applySort Date_getTime "date-asc" items)
      with (Array_sort (fun a b => bestDate Date_getTime a - bestDate Date_getTime b)
              items).
    eapply StronglySorted_weaken;
      [|apply (Array_sort_ascending _ (bestDate Date_getTime)); reflexivity].
    unfold ascending_by. intros a b. now rewrite !bestDate_eq_reference_key.
  - change (applySort Date_getTime "date-desc" items)
      with (Array_sort (fun a b => bestDate Date_getTime b - bestDate Date_getTime a)
              items).
    eapply StronglySorted_weaken;
      [|apply (Array_sort_ascending _ (fun a => - bestDate Date_getTime a));
        intros; simpl; lia].
    unfold ascending_by, descending_by. intros a b.
    rewrite !bestDate_eq_reference_key. lia.
Qed.
End PipelineFacts.

(** C7, as stated, fails when the receipt-start date is the epoch day: its
    timestamp 0 reads as no date, and the listing is keyed by its
    announcement date instead. *)
Lemma bestDate_epoch_receipt_start :
  let item := listing_of "A" "접수중" "서울" Undefined
                (Present "1970-01-01") (Present "2024-05-01") in
  iso_getTime "1970-01-01" = Some 0
  /\ iso_getTime "2024-05-01" = Some 1714521600000
  /\ first_present_key iso_getTime item = 0
  /\ bestDate iso_getTime item = 1714521600000
  /\ bestDate iso_getTime item <> first_present_key iso_getTime item.
Proof. vm_compute. repeat split; discriminate. Qed.

(** ** The pipeline on the store of arrays *)

Lemma ArrayM_bind_Some {A B} (m : ArrayM A) (f : A -> ArrayM B)
    (h h' : gmap nat (list Listing)) (a : A) :
  m h = Some (a, h') -> (m ≫= f) h = f a h'.
Proof. intros H. unfold mbind, ArrayM_bind. now rewrite H. Qed.

Lemma new_array_fresh (l : list Listing) (h : gmap nat (list Listing)) :
  exists r, new_array l h = Some (r, <[r:=l]> h) /\ h !! r = None.
Proof.
  exists (fresh (dom h)). split; [reflexivity|].
  apply not_elem_of_dom. apply is_fresh.
Qed.

(** [sort] called on an array changes that very array. *)
Lemma Array_sort_ref_in_place (compareFn : Listing -> Listing -> Z) (r : nat)
    (l : list Listing) (h : gmap nat (list Listing)) :
  h !! r = Some l ->
  Array_sort_ref compareFn r h = Some (r, <[r:=Array_sort compareFn l]> h).
Proof.
  intros Hr. unfold Array_sort_ref, mbind, ArrayM_bind, get_array, set_array.
  now rewrite Hr, Hr.
Qed.

Lemma applyFilters_ref_spec (activeFilters : Filters) (r : nat)
    (l : list Listing) (h : gmap nat (list Listing)) :
  h !! r = Some l ->
  exists r',
    applyFilters_ref activeFilters r h
    = Some (r', <[r':=applyFilters activeFilters l]> h)
    /\ h !! r' = None.
Proof.
  intros Hr.
  unfold applyFilters_ref, Array_filter_ref, mbind, ArrayM_bind, get_array.
  rewrite Hr. apply new_array_fresh.
Qed.

Section StoreFacts.
Variable Date_getTime : string -> option Z.

Lemma applySort_ref_spec (activeSort : string) (r : nat) (l : list Listing)
    (h : gmap nat (list Listing)) :
  h !! r = Some l ->
  exists r',
    applySort_ref Date_getTime activeSort r h
    = Some (r', <[r':=applySort Date_getTime activeSort l]> h)
    /\ h !! r' = None.
Proof.
  intros Hr.
  destruct (new_array_fresh l h) as (r' & Hnew & Hfresh).
  assert (Hspread : Array_spread_ref r h = Some (r', <[r':=l]> h)).
  { unfold Array_spread_ref.
    rewrite (ArrayM_bind_Some _ _ h h l); [exact Hnew|].
    unfold get_array. now rewrite Hr. }
  exists r'. split; [|exact Hfresh].
  unfold applySort_ref. rewrite (ArrayM_bind_Some _ _ _ _ _ Hspread).
  assert (Hsort : forall compareFn,
    (Array_sort_ref compareFn r' ≫= λ _ : nat, mret r') (<[r':=l]> h)
    = Some (r', <[r':=Array_sort compareFn l]> h)).
  { intros c.
    rewrite (ArrayM_bind_Some _ _ _ _ _
               (Array_sort_ref_in_place c r' l _ (lookup_insert_eq _ _ _))).
    now rewrite insert_insert_eq. }
  unfold applySort.
  destruct (String.eqb activeSort "profit-desc"); [apply Hsort|].
  destruct (String.eqb activeSort "profit-asc"); [apply Hsort|].
  destruct (String.eqb activeSort "date-asc"); [apply Hsort|].
  destruct (String.eqb activeSort "date-desc"); [apply Hsort|].
  reflexivity.
Qed.

(** C8: run on a store where [allItems] holds [items], the filter-then-sort
    pipeline leaves [allItems] holding [items], in the same order, and every
    array that existed before holding what it held.  Filtering builds a new
    array; sorting orders a copy, not the array it is given: after the
    pipeline the filtered array still holds the filtered items in input
    order, and the result is a further new array, holding
    [applySort (applyFilters items)].  On any store, [applySort] leaves the
    array of its caller as it was and returns a new one, whereas [sort]
    itself reorders the very array it is called on. *)
Theorem view_ref_leaves_input (h : gmap nat (list Listing)) (allItems : nat)
    (items : list Listing) (activeFilters : Filters) (activeSort : string) :
  h !! allItems = Some items ->
  (exists (filtered result : nat) (h' : gmap nat (list Listing)),
      view_ref Date_getTime activeFilters activeSort allItems h = Some (result, h')
      /\ h' !! allItems = Some items
      /\ (forall r, is_Some (h !! r) -> h' !! r = h !! r)
      /\ h !! result = None
      /\ h' !! result
         = Some (applySort Date_getTime activeSort (applyFilters activeFilters items))
      /\ h' !! result = Some (view Date_getTime activeFilters activeSort items)
      /\ applyFilters_ref activeFilters allItems h
         = Some (filtered, <[filtered:=applyFilters activeFilters items]> h)
      /\ h !! filtered = None
      /\ filtered <> result
      /\ filtered <> allItems
      /\ result <> allItems
      /\ h' !! filtered = Some (applyFilters activeFilters items)
      /\ (forall r, r <> filtered -> r <> result -> h' !! r = h !! r))
  /\ (forall (h0 : gmap nat (list Listing)) (caller : nat) (l : list Listing),
        h0 !! caller = Some l ->
        exists (copy : nat) (h1 : gmap nat (list Listing)),
          applySort_ref Date_getTime activeSort caller h0 = Some (copy, h1)
          /\ h0 !! copy = None
          /\ copy <> caller
          /\ h1 !! caller = Some l
          /\ h1 !! copy = Some (applySort Date_getTime activeSort l)
          /\ (forall r, r <> copy -> h1 !! r = h0 !! r))
  /\ (forall (compareFn : Listing -> Listing -> Z)
             (h0 : gmap nat (list Listing)) (arr : nat) (l : list Listing),
        h0 !! arr = Some l ->
        exists h1 : gmap nat (list Listing),
          Array_sort_ref compareFn arr h0 = Some (arr, h1)
          /\ h1 !! arr = Some (Array_sort compareFn l)
          /\ (forall r, r <> arr -> h1 !! r = h0 !! r)).
Proof.
  intros Hitems.
  assert (Hsortcopy :
    forall (h0 : gmap nat (list Listing)) (caller : nat) (l : list Listing),
      h0 !! caller = Some l ->
      exists (copy : nat) (h1 : gmap nat (list Listing)),
        applySort_ref Date_getTime activeSort caller h0 = Some (copy, h1)
        /\ h0 !! copy = None
        /\ copy <> caller
        /\ h1 !! caller = Some l
        /\ h1 !! copy = Some (applySort Date_getTime activeSort l)
        /\ (forall r, r <> copy -> h1 !! r = h0 !! r)).
  { intros h0 caller l Hcaller.
    destruct (applySort_ref_spec activeSort caller l h0 Hcaller)
      as (copy & Hsort & Hcopy).
    assert (copy <> caller) as Hne by congruence.
    exists copy, (<[copy:=applySort Date_getTime activeSort l]> h0).
    split; [exact Hsort|]. split; [exact Hcopy|]. split; [exact Hne|].
    split; [now rewrite lookup_insert_ne|].
    split; [apply lookup_insert_eq|].
    intros r Hr. now rewrite lookup_insert_ne. }
  split; [|split; [exact Hsortcopy|]].
  - destruct (applyFilters_ref_spec activeFilters allItems items h Hitems)
      as (r1 & Hfilter & Hr1).
    destruct (Hsortcopy (<[r1:=applyFilters activeFilters items]> h) r1
                (applyFilters activeFilters items))
      as (r2 & h' & Hsort & Hr2 & Hne & Hkept & Hresult & Hframe);
      [apply lookup_insert_eq|].
    rewrite lookup_insert_ne in Hr2 by congruence.
    assert (r1 <> allItems) as Hne1 by congruence.
    assert (r2 <> allItems) as Hne2 by congruence.
    exists r1, r2, h'.
    split.
    { unfold view_ref, mbind, ArrayM_bind. rewrite Hfilter. exact Hsort. }
    split.
    { rewrite Hframe by congruence. now rewrite lookup_insert_ne. }
    split.
    { intros r [x Hx]. rewrite Hframe by congruence.
      rewrite lookup_insert_ne; [reflexivity | congruence]. }
    split; [exact Hr2|]. split; [exact Hresult|]. split; [exact Hresult|].
    split; [exact Hfilter|]. split; [exact Hr1|]. split; [congruence|].
    split; [exact Hne1|]. split; [exact Hne2|]. split; [exact Hkept|].
    intros r Hrf Hrr. rewrite Hframe by assumption.
    now rewrite lookup_insert_ne.
  - intros compareFn h0 arr l Harr.
    exists (<[arr:=Array_sort compareFn l]> h0).
    split; [now apply Array_sort_ref_in_place|].
    split; [apply lookup_insert_eq|].
    intros r Hr. now rewrite lookup_insert_ne.
Qed.
End StoreFacts.

Lemma view_ref_leaves_input_witness :
  let a := listing_of "A" "접수중" "서울" (Present 1) Undefined Undefined in
  let b := listing_of "B" "접수중" "서울" (Present 2) Undefined Undefined in
  let h : gmap nat (list Listing) := {[ 0%nat := [a; b] ]} in
  h !! 0%nat = Some [a; b] /\
  applyFilters initial_filters [a; b] = [a; b] /\
  view iso_getTime initial_filters "profit-desc" [a; b] = [b; a] /\
  exists (filtered result : nat) (h' : gmap nat (list Listing)),
    view_ref iso_getTime initial_filters "profit-desc" 0%nat h = Some (result, h')
    /\ h' !! 0%nat = Some [a; b]
    /\ (forall r, is_Some (h !! r) -> h' !! r = h !! r)
    /\ h !! result = None
    /\ h' !! result
       = Some (applySort iso_getTime "profit-desc" (applyFilters initial_filters [a; b]))
    /\ h' !! result = Some (view iso_getTime initial_filters "profit-desc" [a; b])
    /\ applyFilters_ref initial_filters 0%nat h
       = Some (filtered, <[filtered:=applyFilters initial_filters [a; b]]> h)
    /\ h !! filtered = None
    /\ filtered <> result
    /\ filtered <> 0%nat
    /\ result <> 0%nat
    /\ h' !! filtered = Some (applyFilters initial_filters [a; b])
    /\ (forall r, r <> filtered -> r <> result -> h' !! r = h !! r).
Proof.
  intros a b h. split; [reflexivity|]. split; [reflexivity|].
  split; [reflexivity|].
  apply (view_ref_leaves_input iso_getTime h 0%nat [a; b] initial_filters "profit-desc").
  reflexivity.
Defined.

(** ** Loading the snapshot *)

Lemma AppM_bind_Ok {A B} (m : AppM A) (f : A -> AppM B) (st st' : AppState)
    (a : A) :
  m st = (Ok a, st') -> (m ≫= f) st = f a st'.
Proof. intros H. unfold mbind, AppM_bind. now rewrite H. Qed.

Lemma AppM_bind_Throw {A B} (m : AppM A) (f : A -> AppM B) (st st' : AppState)
    (e : exn) :
  m st = (Throw e, st') -> (m ≫= f) st = (Throw e, st').
Proof. intros H. unfold mbind, AppM_bind. now rewrite H. Qed.

Lemma bind_get_state {B} (f : AppState -> AppM B) (st : AppState) :
  (get_state ≫= f) st = f st st.
Proof. reflexivity. Qed.

Lemma emit_with_effects (e : Effect) (st : AppState) :
  emit e st = (Ok tt, with_effects st [e]).
Proof. reflexivity. Qed.

Lemma with_effects_app (st : AppState) (es es' : list Effect) :
  with_effects (with_effects st es) es' = with_effects st (es ++ es').
Proof. unfold with_effects. simpl. now rewrite app_assoc. Qed.

Lemma try_catch_Throw (body : AppM unit) (handler : exn -> AppM unit)
    (st st' : AppState) (e : exn) :
  body st = (Throw e, st') -> try_catch body handler st = handler e st'.
Proof. intros H. unfold try_catch. now rewrite H. Qed.

Lemma try_catch_Ok (body : AppM unit) (handler : exn -> AppM unit)
    (st st' : AppState) :
  body st = (Ok tt, st') -> try_catch body handler st = (Ok tt, st').
Proof. intros H. unfold try_catch. now rewrite H. Qed.

(** The handler of [loadData]: the error goes to the console, the card list
    becomes the warning. *)
Lemma load_handler_effects (e : exn) (st : AppState) :
  (emit (ConsoleError e);; emit (SetCardList LoadFailedState)) st
  = (Ok tt, with_effects st [ConsoleError e; SetCardList LoadFailedState]).
Proof.
  rewrite (AppM_bind_Ok _ _ _ _ _ (emit_with_effects _ _)).
  rewrite emit_with_effects, with_effects_app. reflexivity.
Qed.

Section LoadFacts.
Variable Date_getTime : string -> option Z.

Lemma renderCards_effect (st : AppState) :
  exists e, renderCards Date_getTime st = (Ok tt, with_effects st [e]).
Proof.
  unfold renderCards.
  rewrite (AppM_bind_Ok _ _ st st st) by reflexivity.
  destruct (length _ =? 0)%nat; eexists; apply emit_with_effects.
Qed.

Lemma updateSummary_effects (data : Snapshot) (st : AppState) :
  exists es, updateSummary data st = (Ok tt, with_effects st es).
Proof.
  unfold updateSummary. cbv zeta.
  repeat (rewrite (AppM_bind_Ok _ _ _ _ _ (emit_with_effects _ _))).
  rewrite emit_with_effects, !with_effects_app. eexists. reflexivity.
Qed.

(** The try block, when the document arrives. *)
Lemma load_success (resp : Response) (data : Snapshot) (st : AppState) :
  resp_ok resp = true ->
  resp_json resp = inr (Present data) ->
  exists es,
    loadData Date_getTime (inr resp) st
    = (Ok tt,
       with_effects
         {| allItems := or_else (items data) [];
            activeFilters := activeFilters st;
            activeSort := activeSort st;
            location_hash := location_hash st;
            effects := effects st |} es).
Proof.
  intros Hok Hjson. unfold loadData.
  set (st1 := {| allItems := or_else (items data) [];
                 activeFilters := activeFilters st;
                 activeSort := activeSort st;
                 location_hash := location_hash st;
                 effects := effects st |}).
  destruct (updateSummary_effects data
              (with_effects st1
                 [SetText "updatedAt"
                    ("최종 업데이트: " +:+ or_else (updated_at data) "-")]))
    as (es & Hsum).
  destruct (renderCards_effect
              (with_effects
                 (with_effects st1
                    [SetText "updatedAt"
                       ("최종 업데이트: " +:+ or_else (updated_at data) "-")]) es))
    as (e & Hrender).
  eexists. apply try_catch_Ok.
  rewrite (AppM_bind_Ok _ _ st st resp) by reflexivity.
  rewrite Hok. cbn [negb].
  rewrite (AppM_bind_Ok _ _ st st (Present data)) by (rewrite Hjson; reflexivity).
  rewrite (AppM_bind_Ok _ _ st st1 tt) by reflexivity.
  rewrite (AppM_bind_Ok _ _ _ _ _ (emit_with_effects _ _)).
  rewrite (AppM_bind_Ok _ _ _ _ _ Hsum).
  rewrite Hrender, !with_effects_app. reflexivity.
Qed.

(** The try block, when the snapshot cannot be had: it throws before
    [allItems] is assigned. *)
Lemma load_failure (fetched : exn + Response) (st : AppState) :
  snapshot_unavailable fetched = true ->
  exists e,
    loadData Date_getTime fetched st
    = (Ok tt, with_effects st [ConsoleError e; SetCardList LoadFailedState])
    /\ (forall resp, fetched = inr resp -> resp_ok resp = false ->
          e = Error ("HTTP " +:+ Number_toString (resp_status resp))).
Proof.
  intros Hfail. unfold loadData.
  destruct fetched as [e|resp].
  - exists e. split; [|discriminate].
    rewrite (try_catch_Throw _ _ st st e); [apply load_handler_effects|].
    apply AppM_bind_Throw. reflexivity.
  - simpl in Hfail. destruct (resp_ok resp) eqn:Hok.
    + destruct (resp_json resp) as [e|data] eqn:Hjson; [|discriminate].
      exists e. split; [|congruence].
      rewrite (try_catch_Throw _ _ st st e); [apply load_handler_effects|].
      rewrite (AppM_bind_Ok _ _ st st resp) by reflexivity.
      rewrite Hok. cbn [negb].
      apply AppM_bind_Throw. rewrite Hjson. reflexivity.
    + exists (Error ("HTTP " +:+ Number_toString (resp_status resp))).
      split; [|intros r [= <-] _; reflexivity].
      rewrite (try_catch_Throw _ _ st st
                 (Error ("HTTP " +:+ Number_toString (resp_status resp))));
        [apply load_handler_effects|].
      rewrite (AppM_bind_Ok _ _ st st resp) by reflexivity.
      rewrite Hok. reflexivity.
Qed.

(** A document that is [null] makes [data.items] throw, again before
    [allItems] is assigned. *)
Lemma load_null_document (resp : Response) (data : nullable Snapshot)
    (st : AppState) :
  resp_ok resp = true ->
  resp_json resp = inr data ->
  data = Null \/ data = Undefined ->
  exists e,
    loadData Date_getTime (inr resp) st
    = (Ok tt, with_effects st [ConsoleError e; SetCardList LoadFailedState]).
Proof.
  intros Hok Hjson Hdata. eexists. unfold loadData.
  erewrite (try_catch_Throw _ _ st st); [apply load_handler_effects|].
  rewrite (AppM_bind_Ok _ _ st st resp) by reflexivity.
  rewrite Hok. cbn [negb].
  rewrite (AppM_bind_Ok _ _ st st data) by (rewrite Hjson; reflexivity).
  destruct Hdata as [-> | ->]; reflexivity.
Qed.

Lemma applySort_nil (activeSort : string) :
  applySort Date_getTime activeSort [] = [].
Proof. apply Permutation_nil, Permutation_sym, applySort_perm. Qed.

(** However the fetch settles, [loadData] returns normally, and [allItems]
    is either what it was or the whole [items] array of the document. *)
Lemma loadData_all_or_nothing (fetched : exn + Response) (st : AppState) :
  exists st',
    loadData Date_getTime fetched st = (Ok tt, st')
    /\ (allItems st' = allItems st
        \/ exists resp data,
             fetched = inr resp
             /\ resp_json resp = inr (Present data)
             /\ allItems st'
                = match items data with Present l => l | _ => [] end).
Proof.
  destruct (snapshot_unavailable fetched) eqn:Hfail.
  - destruct (load_failure fetched st Hfail) as (e & -> & _).
    eexists. split; [reflexivity|]. left. reflexivity.
  - destruct fetched as [e|resp]; [discriminate|]. simpl in Hfail.
    apply orb_false_iff in Hfail as [Hok Hjson].
    apply negb_false_iff in Hok.
    destruct (resp_json resp) as [e|data] eqn:Hdata; [discriminate|].
    destruct data as [| |data].
    + destruct (load_null_document resp Undefined st Hok Hdata) as (e & ->);
        [auto|]. eexists. split; [reflexivity|]. left. reflexivity.
    + destruct (load_null_document resp Null st Hok Hdata) as (e & ->);
        [auto|]. eexists. split; [reflexivity|]. left. reflexivity.
    + destruct (load_success resp data st Hok Hdata) as (es & ->).
      eexists. split; [reflexivity|]. right. exists resp, data.
      split; [reflexivity|]. split; [exact Hdata|].
      simpl. destruct (items data); reflexivity.
Qed.

(** C9: when the fetch fails, or answers with a non-success status, or its
    body does not parse, [loadData] does not throw: the error is caught (for
    a non-success status it is the error "HTTP" with the status), logged, and
    the card list is given the warning empty state, once; [allItems] is left
    as it was, which after page load is empty, so the filter/sort pipeline
    sees no item.  In every case [allItems] ends as it was or as the whole
    [items] array of the document, never a part of it. *)
Theorem loadData_failure_is_empty_state (fetched : exn + Response)
    (st : AppState) :
  snapshot_unavailable fetched = true ->
  (exists (e : exn) (st' : AppState),
      loadData Date_getTime fetched st = (Ok tt, st')
      /\ effects st' = effects st ++ [ConsoleError e; SetCardList LoadFailedState]
      /\ rendering_signals [ConsoleError e; SetCardList LoadFailedState]
         = [LoadFailure]
      /\ length (List.filter is_load_failure (effects st'))
         = S (length (List.filter is_load_failure (effects st)))
      /\ allItems st' = allItems st
      /\ (forall resp, fetched = inr resp -> resp_ok resp = false ->
            e = Error ("HTTP " +:+ Number_toString (resp_status resp))))
  /\ (forall hash : string,
        exists st' : AppState,
          loadData Date_getTime fetched (initial_state hash) = (Ok tt, st')
          /\ allItems st' = []
          /\ rendering_signals (effects st') = [LoadFailure]
          /\ forall activeFilters activeSort,
               view Date_getTime activeFilters activeSort (allItems st') = [])
  /\ (forall (fetched' : exn + Response) (st0 : AppState),
        exists st1 : AppState,
          loadData Date_getTime fetched' st0 = (Ok tt, st1)
          /\ (allItems st1 = allItems st0
              \/ exists resp data,
                   fetched' = inr resp
                   /\ resp_json resp = inr (Present data)
                   /\ allItems st1
                      = match items data with Present l => l | _ => [] end)).
Proof.
  intros Hfail. split; [|split].
  - destruct (load_failure fetched st Hfail) as (e & Hload & Hhttp).
    exists e, (with_effects st [ConsoleError e; SetCardList LoadFailedState]).
    split; [exact Hload|]. split; [reflexivity|]. split; [reflexivity|].
    split; [|split; [reflexivity | exact Hhttp]].
    simpl. rewrite List.filter_app, length_app. simpl. lia.
  - intros hash.
    destruct (load_failure fetched (initial_state hash) Hfail) as (e & Hload & _).
    eexists. split; [exact Hload|]. split; [reflexivity|].
    split; [reflexivity|]. intros f s. apply applySort_nil.
  - exact loadData_all_or_nothing.
Qed.
End LoadFacts.

Lemma loadData_failure_witness :
  let fetched : exn + Response :=
    inr {| resp_status := 404; resp_json := inl (Rejection "Unexpected token") |} in
  snapshot_unavailable fetched = true
  /\ exists st' : AppState,
       loadData iso_getTime fetched (initial_state EmptyString) = (Ok tt, st')
       /\ allItems st' = []
       /\ rendering_signals (effects st') = [LoadFailure]
       /\ forall activeFilters activeSort,
            view iso_getTime activeFilters activeSort (allItems st') = [].
Proof.
  intros fetched. split; [reflexivity|].
  apply (proj1 (proj2 (loadData_failure_is_empty_state iso_getTime fetched
                         (initial_state EmptyString) eq_refl)) EmptyString).
Defined.

(** ** The detail overlay *)

Lemma startsWith_detail (id' : string) :
  startsWith ("#detail/" +:+ id') "#detail/" = true.
Proof. unfold startsWith. simpl. now destruct id'. Qed.

Lemma replace_detail (id' : string) :
  String_replace "#detail/" EmptyString ("#detail/" +:+ id') = id'.
Proof.
  change ("#detail/" +:+ id') with (String "#" ("detail/" +:+ id')).
  unfold String_replace.
  change (String "#" ("detail/" +:+ id')) with ("#detail/" +:+ id').
  fold (startsWith ("#detail/" +:+ id') "#detail/").
  rewrite startsWith_detail. reflexivity.
Qed.

Lemma navState_detail (id' : string) :
  navState ("#detail/" +:+ id') = NavDetail id'.
Proof. unfold navState. rewrite startsWith_detail. reflexivity. Qed.

Lemma hashchange_openDetail (st : AppState) (id' : string) :
  hashchange ("#detail/" +:+ id') st
  = openDetail id' (with_hash st ("#detail/" +:+ id')).
Proof.
  unfold hashchange.
  rewrite (AppM_bind_Ok _ _ st (with_hash st ("#detail/" +:+ id')) tt)
    by reflexivity.
  unfold handleHashChange. rewrite bind_get_state.
  cbv zeta. cbn [location_hash with_hash].
  now rewrite startsWith_detail, replace_detail.
Qed.

(** For a listing that is loaded, the overlay is drawn and the page scroll is
    suspended. *)
Lemma known_detail_id_renders (st : AppState) (id' : string) (item : Listing) :
  List.find (fun i => String.eqb (id i) id') (allItems st) = Some item ->
  hashchange ("#detail/" +:+ id') st
  = (Ok tt,
     with_effects (with_hash st ("#detail/" +:+ id'))
       [SetDetailPanel item; OverlayActive true; BodyOverflow "hidden"]).
Proof.
  intros Hfind. rewrite hashchange_openDetail. unfold openDetail.
  rewrite bind_get_state.
  cbn [allItems with_hash]. rewrite Hfind.
  rewrite (AppM_bind_Ok _ _ _ _ _ (emit_with_effects _ _)).
  rewrite (AppM_bind_Ok _ _ _ _ _ (emit_with_effects _ _)).
  rewrite emit_with_effects, !with_effects_app. reflexivity.
Qed.

(** C3, as amended: when the fragment changes to [detail/{id}] and no loaded
    listing has that id, the handler returns normally, the fragment stays
    [detail/{id}], so the navigation state is [Detail(id)], and nothing at all
    is written to the page: no detail view, no change of overlay or scroll
    lock, and no signal of any kind to the rendering boundary. *)
Theorem unknown_detail_id_is_silent (st : AppState) (id' : string) :
  List.find (fun i => String.eqb (id i) id') (allItems st) = None ->
  exists st' : AppState,
    hashchange ("#detail/" +:+ id') st = (Ok tt, st')
    /\ location_hash st' = "#detail/" +:+ id'
    /\ navState (location_hash st') = NavDetail id'
    /\ effects st' = effects st
    /\ rendering_signals (effects st') = rendering_signals (effects st)
    /\ allItems st' = allItems st
    /\ activeFilters st' = activeFilters st
    /\ activeSort st' = activeSort st.
Proof.
  intros Hfind. exists (with_hash st ("#detail/" +:+ id')).
  split.
  { rewrite hashchange_openDetail. unfold openDetail.
    rewrite bind_get_state.
    cbn [allItems with_hash]. now rewrite Hfind. }
  split; [reflexivity|]. split; [apply navState_detail|].
  repeat split.
Qed.

Lemma unknown_detail_id_witness :
  let st := {| allItems := [listing_of "XYZ" "접수중" "서울" Undefined Undefined Undefined];
               activeFilters := initial_filters;
               activeSort := "date-asc";
               location_hash := EmptyString;
               effects := [] |} in
  List.find (fun i => String.eqb (id i) "doesnotexist") (allItems st) = None
  /\ exists st' : AppState,
       hashchange ("#detail/" +:+ "doesnotexist") st = (Ok tt, st')
       /\ location_hash st' = "#detail/" +:+ "doesnotexist"
       /\ navState (location_hash st') = NavDetail "doesnotexist"
       /\ effects st' = effects st
       /\ rendering_signals (effects st') = rendering_signals (effects st)
       /\ allItems st' = allItems st
       /\ activeFilters st' = activeFilters st
       /\ activeSort st' = activeSort st.
Proof.
  intros st. split; [reflexivity|].
  apply (unknown_detail_id_is_silent st "doesnotexist"). reflexivity.
Defined.

(** C3, as stated, fails: for an id no listing has, the rendering boundary
    is handed nothing, so no [NotFound] either. *)
Lemma unknown_detail_id_no_NotFound :
  let st := {| allItems := [listing_of "XYZ" "접수중" "서울" Undefined Undefined Undefined];
               activeFilters := initial_filters;
               activeSort := "date-asc";
               location_hash := EmptyString;
               effects := [] |} in
  let st' := snd (hashchange "#detail/doesnotexist" st) in
  fst (hashchange "#detail/doesnotexist" st) = Ok tt
  /\ navState (location_hash st') = NavDetail "doesnotexist"
  /\ rendering_signals (effects st') = []
  /\ ~ In NotFound (rendering_signals (effects st')).
Proof.
  vm_compute. repeat split. intros [].
Qed.

(** * Further properties *)

(** ** Currency formatting, further *)

(** X1: the text of an amount is the text of its magnitude, with a minus
    sign in front exactly when the amount is negative. *)
Theorem formatMoney_sign_and_magnitude (amount : Z) :
  formatMoney (Present amount)
  = (if amount <? 0 then "-" else EmptyString)
    +:+ formatMoney (Present (Z.abs amount)).
Proof.
  rewrite !formatMoney_eq_rule. unfold formatMoney_rule.
  rewrite Z.abs_idemp.
  destruct (decide (Z.abs amount < 0)) as [Hneg|_]; [lia|].
  destruct (Z.ltb_spec amount 0), (decide (amount < 0)); try lia; reflexivity.
Qed.





(** ** Status classes and regulation badges *)

(** X3: the default status filter and the status class of a card agree: a
    listing passes the filter [upcoming] (with every region allowed) exactly
    when its card carries the class [upcoming] or [open]; and these two
    classes, like [closed], each stand for one status only. *)
Theorem upcoming_filter_matches_status_class (item : Listing) :
  (keep {| filter_status := "upcoming"; filter_region := "all" |} item = true
   <-> getStatusClass (status item) = "upcoming"
       \/ getStatusClass (status item) = "open")
  /\ (forall s, getStatusClass s = "upcoming" <-> s = "접수예정")
  /\ (forall s, getStatusClass s = "open" <-> s = "접수중")
  /\ (forall s, getStatusClass s = "closed" <-> s = "접수마감").
Proof.
  split.
  { rewrite keep_is_conjunction. unfold status_passes, region_passes, getStatusClass.
    cbn [filter_status filter_region].
    change (String.eqb "upcoming" "upcoming") with true.
    change (String.eqb "all" "all") with true. cbv iota.
    destruct (String.eqb (status item) "접수예정"); [simpl; tauto|].
    destruct (String.eqb (status item) "접수중"); [simpl; tauto|].
    destruct (String.eqb (status item) "접수마감"); simpl;
      split; intros H; try discriminate; destruct H; discriminate. }
  repeat split; unfold getStatusClass;
    try (intros ->; reflexivity);
    destruct (String.eqb_spec s "접수예정") as [->|]; try discriminate; try reflexivity;
    destruct (String.eqb_spec s "접수중") as [->|]; try discriminate; try reflexivity;
    destruct (String.eqb_spec s "접수마감") as [->|]; try discriminate; try reflexivity.
Qed.

(** X4: the badge row is never empty.  There is one badge for each zone flag
    that is set, in the order speculative, adjusted, price cap, public, and
    when no flag is set the single badge 비규제지역 (unregulated), which
    appears in no other case. *)
Theorem buildRegulationBadges_one_per_flag (reg : Regulations) :
  buildRegulationBadges reg <> []
  /\ length (buildRegulationBadges reg) = Nat.max 1 (flags_set reg)
  /\ (In {| badge_severity := "mild"; badge_label := "비규제지역" |}
         (buildRegulationBadges reg)
      <-> flags_set reg = 0%nat)
  /\ (In {| badge_severity := "severe"; badge_label := "투기과열지구" |}
         (buildRegulationBadges reg)
      <-> truthy (is_speculative_zone reg) = true)
  /\ (In {| badge_severity := "moderate"; badge_label := "조정대상지역" |}
         (buildRegulationBadges reg)
      <-> truthy (is_adjusted_zone reg) = true)
  /\ (In {| badge_severity := "moderate"; badge_label := "분양가상한제" |}
         (buildRegulationBadges reg)
      <-> truthy (is_price_cap reg) = true)
  /\ (In {| badge_severity := "mild"; badge_label := "공공주택지구" |}
         (buildRegulationBadges reg)
      <-> truthy (is_public_zone reg) = true)
  /\ buildRegulationBadges reg
     = (if truthy (is_speculative_zone reg)
        then [{| badge_severity := "severe"; badge_label := "투기과열지구" |}] else [])
       ++ (if truthy (is_adjusted_zone reg)
           then [{| badge_severity := "moderate"; badge_label := "조정대상지역" |}] else [])
       ++ (if truthy (is_price_cap reg)
           then [{| badge_severity := "moderate"; badge_label := "분양가상한제" |}] else [])
       ++ (if truthy (is_public_zone reg)
           then [{| badge_severity := "mild"; badge_label := "공공주택지구" |}] else [])
       ++ (if (flags_set reg =? 0)%nat
           then [{| badge_severity := "mild"; badge_label := "비규제지역" |}] else []).
Proof.
  unfold buildRegulationBadges, flags_set. cbv zeta.
  destruct (truthy (is_speculative_zone reg)),
           (truthy (is_adjusted_zone reg)),
           (truthy (is_price_cap reg)),
           (truthy (is_public_zone reg));
    cbn -[String.eqb];
    (split; [discriminate|]); (split; [reflexivity|]);
    repeat split; intros H; try discriminate; try reflexivity; try tauto;
    repeat (destruct H as [H|H]; try discriminate H); try contradiction.
Qed.

(** ** The handlers, one by one *)

Lemma prefix_split (p s : string) :
  String.prefix p s = true -> s = p +:+ String_drop (String.length p) s.
Proof.
  revert s. induction p as [|c p IH]; intros s H; [reflexivity|].
  destruct s as [|c' s]; [discriminate|]. simpl in H.
  destruct (ascii_dec c c') as [->|]; [|discriminate].
  change (String c' s = String c' (p +:+ String_drop (String.length p) s)).
  f_equal. now apply IH.
Qed.

Lemma replace_prefix (p r s : string) :
  String.prefix p s = true ->
  String_replace p r s = r +:+ String_drop (String.length p) s.
Proof. intros H. destruct s; cbn [String_replace]; now rewrite H. Qed.

Lemma with_hash_effects (st : AppState) (h : string) (es : list Effect) :
  with_effects (with_hash st h) es = with_hash (with_effects st es) h.
Proof. reflexivity. Qed.

Lemma closeDetail_spec (st : AppState) :
  closeDetail st
  = (Ok tt,
     if startsWith (location_hash st) "#detail/" then
       with_hash
         (with_effects st [OverlayActive false; BodyOverflow EmptyString; PushState])
         EmptyString
     else with_effects st [OverlayActive false; BodyOverflow EmptyString]).
Proof.
  unfold closeDetail.
  rewrite (AppM_bind_Ok _ _ _ _ _ (emit_with_effects _ _)).
  rewrite (AppM_bind_Ok _ _ _ _ _ (emit_with_effects _ _)).
  rewrite with_effects_app, bind_get_state. cbn [location_hash with_effects].
  destruct (startsWith (location_hash st) "#detail/"); [|reflexivity].
  rewrite (AppM_bind_Ok _ _ _ _ _ (emit_with_effects _ _)).
  rewrite with_effects_app. reflexivity.
Qed.

Lemma openDetail_spec (id' : string) (st : AppState) :
  openDetail id' st
  = (Ok tt,
     match List.find (fun i => String.eqb (id i) id') (allItems st) with
     | Some item =>
         with_effects st
           [SetDetailPanel item; OverlayActive true; BodyOverflow "hidden"]
     | None => st
     end).
Proof.
  unfold openDetail. rewrite bind_get_state.
  destruct (List.find _ (allItems st)); [|reflexivity].
  rewrite (AppM_bind_Ok _ _ _ _ _ (emit_with_effects _ _)).
  rewrite (AppM_bind_Ok _ _ _ _ _ (emit_with_effects _ _)).
  rewrite emit_with_effects, !with_effects_app. reflexivity.
Qed.

Lemma handleHashChange_spec (st : AppState) :
  handleHashChange st
  = if startsWith (location_hash st) "#detail/"
    then openDetail (String_drop (String.length "#detail/") (location_hash st)) st
    else closeDetail st.
Proof.
  unfold handleHashChange. rewrite bind_get_state. cbv zeta.
  destruct (startsWith (location_hash st) "#detail/") eqn:H; [|reflexivity].
  unfold startsWith in H. now rewrite (replace_prefix _ _ _ H).
Qed.

Lemma hashchange_spec (newHash : string) (st : AppState) :
  hashchange newHash st = handleHashChange (with_hash st newHash).
Proof. reflexivity. Qed.

Section HandlerFacts.
Variable Date_getTime : string -> option Z.

Lemma renderCards_spec (st : AppState) :
  renderCards Date_getTime st
  = (Ok tt,
     with_effects st
       [SetCardList
          (cards_html (view Date_getTime (activeFilters st) (activeSort st)
                         (allItems st)))]).
Proof.
  unfold renderCards. rewrite bind_get_state. cbv zeta.
  unfold cards_html, view.
  destruct (length _ =? 0)%nat; apply emit_with_effects.
Qed.

Lemma filterClick_spec (filterType value : string) (st : AppState) :
  filterClick Date_getTime filterType value st
  = renderCards Date_getTime
      {| allItems := allItems st;
         activeFilters := assign_filter (activeFilters st) filterType value;
         activeSort := activeSort st;
         location_hash := location_hash st;
         effects := effects st |}.
Proof. reflexivity. Qed.

Lemma sortChange_spec (value : string) (st : AppState) :
  sortChange Date_getTime value st
  = renderCards Date_getTime
      {| allItems := allItems st;
         activeFilters := activeFilters st;
         activeSort := value;
         location_hash := location_hash st;
         effects := effects st |}.
Proof. reflexivity. Qed.
End HandlerFacts.

(** ** The page after a handler *)

Lemma overlay_active_app (es es' : list Effect) :
  overlay_active (es ++ es')
  = fold_left (fun acc e => match e with OverlayActive on => on | _ => acc end)
      es' (overlay_active es).
Proof. unfold overlay_active. apply fold_left_app. Qed.

Lemma body_overflow_app (es es' : list Effect) :
  body_overflow (es ++ es')
  = fold_left (fun acc e => match e with BodyOverflow v => v | _ => acc end)
      es' (body_overflow es).
Proof. unfold body_overflow. apply fold_left_app. Qed.

Lemma detail_panel_app (es es' : list Effect) :
  detail_panel (es ++ es')
  = fold_left (fun acc e => match e with SetDetailPanel item => Some item | _ => acc end)
      es' (detail_panel es).
Proof. unfold detail_panel. apply fold_left_app. Qed.

Lemma card_list_app (es es' : list Effect) :
  card_list (es ++ es')
  = fold_left (fun acc e => match e with SetCardList html => Some html | _ => acc end)
      es' (card_list es).
Proof. unfold card_list. apply fold_left_app. Qed.

Lemma pushes_app (es es' : list Effect) :
  pushes (es ++ es') = (pushes es + pushes es')%nat.
Proof. unfold pushes. now rewrite List.filter_app, length_app. Qed.

Ltac page_views :=
  cbn [effects location_hash allItems activeFilters activeSort
       with_effects with_hash];
  rewrite ?overlay_active_app, ?body_overflow_app, ?detail_panel_app,
    ?card_list_app, ?pushes_app;
  cbn [fold_left].

(** X5: closing always leaves the overlay closed and the page scroll
    released, whatever the page looked like, and leaves a fragment that is no
    detail fragment: a detail fragment is cleared with one new history entry,
    any other fragment is kept and no entry is pushed.  The loaded listings,
    the panel and the card list are not touched, and closing once more
    pushes nothing. *)
Theorem closeDetail_closes (st : AppState) :
  exists st' : AppState,
    closeDetail st = (Ok tt, st')
    /\ overlay_active (effects st') = false
    /\ body_overflow (effects st') = EmptyString
    /\ startsWith (location_hash st') "#detail/" = false
    /\ navState (location_hash st') = NavList
    /\ location_hash st'
       = (if startsWith (location_hash st) "#detail/" then EmptyString
          else location_hash st)
    /\ pushes (effects st')
       = (pushes (effects st)
          + if startsWith (location_hash st) "#detail/" then 1 else 0)%nat
    /\ allItems st' = allItems st
    /\ detail_panel (effects st') = detail_panel (effects st)
    /\ card_list (effects st') = card_list (effects st)
    /\ exists st'' : AppState,
         closeDetail st' = (Ok tt, st'')
         /\ pushes (effects st'') = pushes (effects st')
         /\ location_hash st'' = location_hash st'.
Proof.
  eexists. split; [apply closeDetail_spec|].
  assert (Hafter :
    startsWith
      (location_hash
         (if startsWith (location_hash st) "#detail/"
          then with_hash
                 (with_effects st
                    [OverlayActive false; BodyOverflow EmptyString; PushState])
                 EmptyString
          else with_effects st [OverlayActive false; BodyOverflow EmptyString]))
      "#detail/" = false).
  { destruct (startsWith (location_hash st) "#detail/") eqn:H;
      [reflexivity | exact H]. }
  repeat split.
  10: { eexists. split; [apply closeDetail_spec|]. rewrite Hafter.
        split; [page_views; unfold pushes; simpl; lia | reflexivity]. }
  all: try exact Hafter.
  all: try (unfold navState; rewrite Hafter; reflexivity).
  all: destruct (startsWith (location_hash st) "#detail/"); page_views;
    try reflexivity; unfold pushes; simpl; lia.
Qed.

(** X6: when the fragment changes to anything that is no detail fragment,
    the empty one included, the overlay is closed and the page scroll
    released; the new fragment is kept as it is and no history entry is
    pushed. *)
Theorem hashchange_other_fragment_closes (newHash : string) (st : AppState) :
  startsWith newHash "#detail/" = false ->
  exists st' : AppState,
    hashchange newHash st = (Ok tt, st')
    /\ effects st'
       = effects st ++ [OverlayActive false; BodyOverflow EmptyString]
    /\ overlay_active (effects st') = false
    /\ body_overflow (effects st') = EmptyString
    /\ location_hash st' = newHash
    /\ navState (location_hash st') = NavList
    /\ pushes (effects st') = pushes (effects st)
    /\ allItems st' = allItems st.
Proof.
  intros Hother.
  exists (with_effects (with_hash st newHash)
            [OverlayActive false; BodyOverflow EmptyString]).
  split.
  { rewrite hashchange_spec, handleHashChange_spec.
    cbn [location_hash with_hash]. rewrite Hother, closeDetail_spec.
    cbn [location_hash with_hash]. now rewrite Hother. }
  repeat split; page_views; try reflexivity.
  - unfold navState. now rewrite Hother.
  - unfold pushes. simpl. lia.
Qed.

Lemma hashchange_other_fragment_witness :
  let st := with_effects (initial_state "#detail/A")
              [OverlayActive true; BodyOverflow "hidden"] in
  startsWith "#list" "#detail/" = false
  /\ exists st' : AppState,
       hashchange "#list" st = (Ok tt, st')
       /\ effects st'
          = effects st ++ [OverlayActive false; BodyOverflow EmptyString]
       /\ overlay_active (effects st') = false
       /\ body_overflow (effects st') = EmptyString
       /\ location_hash st' = "#list"
       /\ navState (location_hash st') = NavList
       /\ pushes (effects st') = pushes (effects st)
       /\ allItems st' = allItems st.
Proof.
  intros st. split; [reflexivity|].
  apply (hashchange_other_fragment_closes "#list" st). reflexivity.
Defined.

Lemma find_by_id (l : list Listing) (id' : string) (item : Listing) :
  List.find (fun i => String.eqb (id i) id') l = Some item ->
  In item l /\ id item = id'.
Proof.
  intros H. apply List.find_some in H as [Hin Hid].
  split; [assumption | now apply String.eqb_eq].
Qed.

(** X7: when the fragment changes to [#detail/] followed by the id of a
    loaded listing, the panel is filled with the first listing of [allItems]
    that has exactly that id, the overlay is opened and the page scroll
    suspended; the fragment is the new one, and neither the loaded listings,
    the card list nor the history are touched. *)
Theorem hashchange_known_id_opens (st : AppState) (id' : string)
    (item : Listing) :
  List.find (fun i => String.eqb (id i) id') (allItems st) = Some item ->
  exists st' : AppState,
    hashchange ("#detail/" +:+ id') st = (Ok tt, st')
    /\ id item = id'
    /\ In item (allItems st)
    /\ detail_panel (effects st') = Some item
    /\ overlay_active (effects st') = true
    /\ body_overflow (effects st') = "hidden"
    /\ location_hash st' = "#detail/" +:+ id'
    /\ navState (location_hash st') = NavDetail id'
    /\ allItems st' = allItems st
    /\ card_list (effects st') = card_list (effects st)
    /\ pushes (effects st') = pushes (effects st).
Proof.
  intros Hfind. destruct (find_by_id _ _ _ Hfind) as [Hin Hid].
  eexists. split; [apply (known_detail_id_renders st id' item Hfind)|].
  repeat split; try assumption; page_views; try reflexivity.
  - apply navState_detail.
  - unfold pushes. simpl. lia.
Qed.

Lemma hashchange_known_id_witness :
  let a := listing_of "A" "접수중" "서울" Undefined Undefined Undefined in
  let b := listing_of "B" "접수중" "서울" Undefined Undefined Undefined in
  let st := {| allItems := [a; b];
               activeFilters := initial_filters;
               activeSort := "date-asc";
               location_hash := EmptyString;
               effects := [] |} in
  List.find (fun i => String.eqb (id i) "B") (allItems st) = Some b
  /\ exists st' : AppState,
       hashchange ("#detail/" +:+ "B") st = (Ok tt, st')
       /\ id b = "B"
       /\ In b (allItems st)
       /\ detail_panel (effects st') = Some b
       /\ overlay_active (effects st') = true
       /\ body_overflow (effects st') = "hidden"
       /\ location_hash st' = "#detail/" +:+ "B"
       /\ navState (location_hash st') = NavDetail "B"
       /\ allItems st' = allItems st
       /\ card_list (effects st') = card_list (effects st)
       /\ pushes (effects st') = pushes (effects st).
Proof.
  intros a b st. split; [reflexivity|].
  apply (hashchange_known_id_opens st "B" b). reflexivity.
Defined.







(** An id with a space or with Hangul reads back encoded, and the click on
    its card opens nothing. *)
Example cardClick_encoded_id_opens_nothing :
  let c := listing_of "A B" "접수중" "서울" Undefined Undefined Undefined in
  let st := {| allItems := [c];
               activeFilters := initial_filters;
               activeSort := "date-asc";
               location_hash := EmptyString;
               effects := [] |} in
  fragment_encode "A B" = "A%20B"
  /\ fragment_encode "가" = "%EA%B0%80"
  /\ cardClick "A B" st = (Ok tt, with_hash st "#detail/A%20B")
  /\ overlay_active (effects (snd (cardClick "A B" st))) = false.
Proof. vm_compute. repeat split. Qed.

(** X9: opening a loaded listing and then pressing Escape leaves the overlay
    closed and the page scroll released, with the fragment cleared (not put
    back to what it was before the opening) and one history entry pushed; any
    other key leaves the overlay open. *)
Theorem open_then_escape_closes (st : AppState) (id' : string)
    (item : Listing) :
  List.find (fun i => String.eqb (id i) id') (allItems st) = Some item ->
  (exists st' : AppState,
      (hashchange ("#detail/" +:+ id');; keyDown "Escape") st = (Ok tt, st')
      /\ overlay_active (effects st') = false
      /\ body_overflow (effects st') = EmptyString
      /\ location_hash st' = EmptyString
      /\ pushes (effects st') = S (pushes (effects st))
      /\ detail_panel (effects st') = Some item
      /\ allItems st' = allItems st)
  /\ (forall key : string,
        key <> "Escape" ->
        exists st' : AppState,
          (hashchange ("#detail/" +:+ id');; keyDown key) st = (Ok tt, st')
          /\ overlay_active (effects st') = true
          /\ body_overflow (effects st') = "hidden"
          /\ location_hash st' = "#detail/" +:+ id').
Proof.
  intros Hfind.
  pose proof (known_detail_id_renders st id' item Hfind) as Hopen.
  split.
  - eexists. split.
    { rewrite (AppM_bind_Ok _ _ _ _ _ Hopen).
      unfold keyDown. change (String.eqb "Escape" "Escape") with true. cbv iota.
      rewrite closeDetail_spec. cbn [location_hash with_effects with_hash].
      rewrite startsWith_detail. reflexivity. }
    repeat split; page_views; try reflexivity.
    unfold pushes. simpl. lia.
  - intros key Hkey. eexists. split.
    { rewrite (AppM_bind_Ok _ _ _ _ _ Hopen).
      unfold keyDown. apply String.eqb_neq in Hkey. rewrite Hkey. reflexivity. }
    repeat split; page_views; reflexivity.
Qed.

Lemma open_then_escape_witness :
  let a := listing_of "A" "접수중" "서울" Undefined Undefined Undefined in
  let st := {| allItems := [a];
               activeFilters := initial_filters;
               activeSort := "date-asc";
               location_hash := "#top";
               effects := [] |} in
  List.find (fun i => String.eqb (id i) "A") (allItems st) = Some a
  /\ exists st' : AppState,
       (hashchange ("#detail/" +:+ "A");; keyDown "Escape") st = (Ok tt, st')
       /\ overlay_active (effects st') = false
       /\ body_overflow (effects st') = EmptyString
       /\ location_hash st' = EmptyString
       /\ pushes (effects st') = S (pushes (effects st))
       /\ detail_panel (effects st') = Some a
       /\ allItems st' = allItems st.
Proof.
  intros a st. split; [reflexivity|].
  exact (proj1 (open_then_escape_closes st "A" a eq_refl)).
Defined.

(** ** The summary tiles and the card list *)

Lemma fold_max_spec (l : list Z) (x : Z) :
  (fold_left Z.max l x = x \/ In (fold_left Z.max l x) l)
  /\ x <= fold_left Z.max l x
  /\ (forall y, In y l -> y <= fold_left Z.max l x).
Proof.
  revert x. induction l as [|a l IH]; intros x; simpl.
  - split; [left; reflexivity|]. split; [lia|]. intros y [].
  - destruct (IH (Z.max x a)) as (Hin & Hle & Hall).
    split; [|split].
    + destruct Hin as [Heq|Hin]; [|right; right; exact Hin].
      rewrite Heq. destruct (Z.max_spec x a) as [[_ ->]|[_ ->]];
        [right; left; reflexivity | left; reflexivity].
    + lia.
    + intros y [<-|Hy]; [lia | auto].
Qed.

Lemma Math_max_spec (x : Z) (l : list Z) :
  In (Math_max (x :: l)) (x :: l)
  /\ (forall y, In y (x :: l) -> y <= Math_max (x :: l)).
Proof.
  unfold Math_max. destruct (fold_max_spec l x) as (Hin & Hle & Hall).
  split.
  - destruct Hin as [->|Hin]; [left; reflexivity | right; exact Hin].
  - intros y [<-|Hy]; [exact Hle | auto].
Qed.

Lemma items_of_or_else (data : Snapshot) :
  or_else (items data) [] = items_of data.
Proof. unfold items_of. destruct (items data); reflexivity. Qed.

Lemma count_upcoming_open (l : list Listing) :
  (count_status "접수예정" l + count_status "접수중" l)%nat
  = length (applyFilters initial_filters l).
Proof.
  unfold count_status, applyFilters, initial_filters.
  induction l as [|x l IH]; [reflexivity|].
  cbn [List.filter]. rewrite keep_is_conjunction.
  unfold status_passes, region_passes.
  cbn [filter_status filter_region].
  change (String.eqb "upcoming" "upcoming") with true.
  change (String.eqb "all" "all") with true. cbv iota.
  destruct (String.eqb_spec (status x) "접수예정") as [Hu|Hu];
    destruct (String.eqb_spec (status x) "접수중") as [Ho|Ho];
    cbn [orb andb length]; try lia.
  rewrite Hu in Ho. discriminate.
Qed.

Lemma updateSummary_spec (data : Snapshot) (st : AppState) :
  updateSummary data st
  = (Ok tt,
     with_effects st
       [SetText "totalCount"
          (Number_toString (Z.of_nat (length (items_of data))));
        SetText "upcomingCount"
          (Number_toString (Z.of_nat (count_status "접수예정" (items_of data))));
        SetText "openCount"
          (Number_toString (Z.of_nat (count_status "접수중" (items_of data))));
        SetText "maxProfit"
          (if (if (0 <? length (items_of data))%nat
               then Math_max (map maxProfitOf (items_of data))
               else 0) >? 0
           then formatMoney
                  (Present (if (0 <? length (items_of data))%nat
                            then Math_max (map maxProfitOf (items_of data))
                            else 0))
           else "-")]).
Proof.
  unfold updateSummary. cbv zeta. rewrite items_of_or_else.
  repeat (rewrite (AppM_bind_Ok _ _ _ _ _ (emit_with_effects _ _))).
  rewrite emit_with_effects, !with_effects_app. reflexivity.
Qed.

(** The greatest profit of the listings, a missing one counted as 0; 0 when
    there is no listing. *)
Lemma greatest_profit (l : list Listing) :
  let maxP := if (0 <? length l)%nat then Math_max (map maxProfitOf l) else 0 in
  (forall i, In i l -> maxProfitKey i <= maxP)
  /\ (l = [] /\ maxP = 0 \/ exists j, In j l /\ maxP = maxProfitKey j).
Proof.
  destruct l as [|x l]; cbv zeta.
  - split; [intros i []|]. left. split; reflexivity.
  - change (0 <? length (x :: l))%nat with true. cbv iota.
    change (map maxProfitOf (x :: l)) with (maxProfitOf x :: map maxProfitOf l).
    destruct (Math_max_spec (maxProfitOf x) (map maxProfitOf l)) as [Hin Hall].
    split.
    + intros i Hi. rewrite <- maxProfitOf_key. apply Hall.
      change (maxProfitOf x :: map maxProfitOf l) with (map maxProfitOf (x :: l)).
      now apply List.in_map.
    + right.
      change (maxProfitOf x :: map maxProfitOf l) with (map maxProfitOf (x :: l)) in Hin.
      apply List.in_map_iff in Hin as (j & Hj & Hjin).
      exists j. split; [assumption|]. now rewrite <- maxProfitOf_key.
Qed.

(** X10: the summary writes four tiles, in this order: the number of
    listings, the number of 접수예정 and the number of 접수중 listings, and
    the greatest profit.  The two status counts add up to the number of
    listings the default filter shows.  The profit tile is the dash exactly
    when no listing has a positive [max_profit] (in particular when there is
    no listing); otherwise it is the formatted [max_profit] of a listing that
    no listing exceeds. *)
Theorem updateSummary_tiles (data : Snapshot) (st : AppState) :
  exists total upcoming opened maxProfit : string,
    updateSummary data st
    = (Ok tt,
       with_effects st
         [SetText "totalCount" total; SetText "upcomingCount" upcoming;
          SetText "openCount" opened; SetText "maxProfit" maxProfit])
    /\ total = Number_toString (Z.of_nat (length (items_of data)))
    /\ upcoming
       = Number_toString (Z.of_nat (count_status "접수예정" (items_of data)))
    /\ opened
       = Number_toString (Z.of_nat (count_status "접수중" (items_of data)))
    /\ (count_status "접수예정" (items_of data)
        + count_status "접수중" (items_of data))%nat
       = length (applyFilters initial_filters (items_of data))
    /\ (maxProfit = "-"
        <-> forall i, In i (items_of data) -> maxProfitKey i <= 0)
    /\ ((exists i, In i (items_of data) /\ 0 < maxProfitKey i) ->
        exists j,
          In j (items_of data)
          /\ maxProfit = formatMoney (Present (maxProfitKey j))
          /\ forall i, In i (items_of data) -> maxProfitKey i <= maxProfitKey j).
Proof.
  do 4 eexists. split; [apply updateSummary_spec|].
  split; [reflexivity|]. split; [reflexivity|]. split; [reflexivity|].
  split; [apply count_upcoming_open|].
  destruct (greatest_profit (items_of data)) as [Hall Hwho]. cbv zeta in *.
  set (maxP := if (0 <? length (items_of data))%nat
               then Math_max (map maxProfitOf (items_of data)) else 0) in *.
  split.
  - destruct (Z.gtb_spec maxP 0) as [Hpos|Hnpos].
    + split.
      * intros Hdash. pose proof (formatMoney_present_length maxP) as Hlen.
        rewrite Hdash in Hlen. simpl in Hlen. lia.
      * intros Hnone. exfalso.
        destruct Hwho as [[_ H0]|(j & Hj & Hmax)]; [lia|].
        specialize (Hnone j Hj). lia.
    + split; [|reflexivity]. intros _ i Hi. specialize (Hall i Hi). lia.
  - intros (i & Hi & Hpos).
    destruct Hwho as [[Hnil _]|(j & Hj & Hmax)].
    { rewrite Hnil in Hi. destruct Hi. }
    exists j. split; [assumption|]. specialize (Hall i Hi) as Hi'.
    destruct (Z.gtb_spec maxP 0); [|lia].
    split; [now rewrite Hmax|]. intros k Hk. rewrite <- Hmax. auto.
Qed.

Lemma card_items (l : list Listing) : map card_item (map createCard l) = l.
Proof. induction l as [|x l IH]; [reflexivity|]. cbn [map]. now rewrite IH. Qed.

Lemma cards_html_NoMatch (shown : list Listing) :
  cards_html shown = NoMatchState <-> shown = [].
Proof.
  unfold cards_html. destruct shown as [|x l]; simpl; split; intros H;
    try reflexivity; discriminate.
Qed.

Section CardListFacts.
Variable Date_getTime : string -> option Z.

Lemma view_nil_iff (activeFilters : Filters) (activeSort : string)
    (l : list Listing) :
  view Date_getTime activeFilters activeSort l = []
  <-> forall item, In item l -> keep activeFilters item = false.
Proof.
  unfold view. split.
  - intros Hnil item Hin.
    destruct (keep activeFilters item) eqn:Hkeep; [|reflexivity].
    assert (In item (applyFilters activeFilters l)) as Hf
      by (apply List.filter_In; auto).
    apply (Permutation_in _ (Permutation_sym (applySort_perm Date_getTime activeSort _)))
      in Hf.
    rewrite Hnil in Hf. destruct Hf.
  - intros Hnone.
    assert (applyFilters activeFilters l = []) as ->; [|apply applySort_nil].
    unfold applyFilters. induction l as [|x l IH]; [reflexivity|].
    cbn [List.filter]. rewrite (Hnone x) by (left; reflexivity).
    apply IH. intros item Hin. apply Hnone. right; assumption.
Qed.

(** X11: [renderCards] writes the card list once and nothing else.  It shows
    the no-match state exactly when no loaded listing passes the active
    filters; otherwise it shows the cards of exactly the loaded listings that
    pass, each as often as it is loaded, in the order of the active sort. *)
Theorem renderCards_shows_the_view (st : AppState) :
  let shown := view Date_getTime (activeFilters st) (activeSort st) (allItems st) in
  exists html : CardListHTML,
    renderCards Date_getTime st = (Ok tt, with_effects st [SetCardList html])
    /\ card_list (effects (with_effects st [SetCardList html])) = Some html
    /\ (html = NoMatchState
        <-> forall item, In item (allItems st) ->
                         keep (activeFilters st) item = false)
    /\ (forall cards,
          html = CardsHTML cards ->
          cards = map createCard shown
          /\ map card_item cards = shown
          /\ Permutation (map card_item cards)
               (applyFilters (activeFilters st) (allItems st))
          /\ forall card, In card cards ->
                In (card_item card) (allItems st)
                /\ keep (activeFilters st) (card_item card) = true).
Proof.
  cbv zeta. eexists. split; [apply renderCards_spec|].
  split; [page_views; reflexivity|]. split.
  - rewrite cards_html_NoMatch. apply view_nil_iff.
  - intros cards Hcards. unfold cards_html in Hcards.
    destruct (length _ =? 0)%nat; [discriminate|].
    injection Hcards as <-.
    split; [reflexivity|]. split; [apply card_items|]. split.
    + rewrite card_items. apply applySort_perm.
    + intros card Hcard.
      apply (List.in_map card_item) in Hcard. rewrite card_items in Hcard.
      apply (Permutation_in _ (applySort_perm Date_getTime _ _)) in Hcard.
      now apply List.filter_In in Hcard.
Qed.

(** X12: a click on a filter button sets the filter its [data-filter] names
    to its [data-value] and leaves the other filter alone (a name that is
    neither [status] nor [region] changes no filter), then redraws the card
    list for the new filters; a change of the sort select sets the sort key
    and redraws the card list with the same listings as before, in the new
    order.  Neither touches the loaded listings, the fragment or the
    overlay. *)
Theorem filterClick_and_sortChange_redraw (st : AppState) :
  (forall filterType value : string,
      exists st' : AppState,
        filterClick Date_getTime filterType value st = (Ok tt, st')
        /\ activeFilters st' = assign_filter (activeFilters st) filterType value
        /\ (filterType = "status" ->
            filter_status (activeFilters st') = value
            /\ filter_region (activeFilters st') = filter_region (activeFilters st))
        /\ (filterType = "region" ->
            filter_region (activeFilters st') = value
            /\ filter_status (activeFilters st') = filter_status (activeFilters st))
        /\ (filterType <> "status" -> filterType <> "region" ->
            activeFilters st' = activeFilters st)
        /\ card_list (effects st')
           = Some (cards_html (view Date_getTime (activeFilters st')
                                 (activeSort st) (allItems st)))
        /\ activeSort st' = activeSort st
        /\ allItems st' = allItems st
        /\ location_hash st' = location_hash st
        /\ overlay_active (effects st') = overlay_active (effects st)
        /\ body_overflow (effects st') = body_overflow (effects st))
  /\ (forall value : string,
        exists st' : AppState,
          sortChange Date_getTime value st = (Ok tt, st')
          /\ activeSort st' = value
          /\ card_list (effects st')
             = Some (cards_html (view Date_getTime (activeFilters st) value
                                   (allItems st)))
          /\ Permutation
               (view Date_getTime (activeFilters st) value (allItems st))
               (view Date_getTime (activeFilters st) (activeSort st) (allItems st))
          /\ activeFilters st' = activeFilters st
          /\ allItems st' = allItems st
          /\ location_hash st' = location_hash st
          /\ overlay_active (effects st') = overlay_active (effects st)
          /\ body_overflow (effects st') = body_overflow (effects st)).
Proof.
  split.
  - intros filterType value. eexists. split.
    { rewrite filterClick_spec. apply renderCards_spec. }
    split; [reflexivity|]. split.
    { intros ->. split; reflexivity. }
    split.
    { intros ->. split; reflexivity. }
    split.
    { intros Hs Hr. cbn [activeFilters with_effects]. unfold assign_filter.
      apply String.eqb_neq in Hs, Hr. now rewrite Hs, Hr. }
    repeat split; page_views; reflexivity.
  - intros value. eexists. split.
    { rewrite sortChange_spec. apply renderCards_spec. }
    split; [reflexivity|]. split; [page_views; reflexivity|]. split.
    { unfold view. rewrite !applySort_perm. reflexivity. }
    repeat split; page_views; reflexivity.
Qed.
End CardListFacts.

(** ** The page over its life *)

Section LifeFacts.
Variable Date_getTime : string -> option Z.

(** The try block of [loadData] when the document arrives, write by
    write. *)
Lemma loadData_success_spec (resp : Response) (data : Snapshot)
    (st : AppState) :
  resp_ok resp = true ->
  resp_json resp = inr (Present data) ->
  loadData Date_getTime (inr resp) st
  = (Ok tt,
     with_effects
       {| allItems := items_of data;
          activeFilters := activeFilters st;
          activeSort := activeSort st;
          location_hash := location_hash st;
          effects := effects st |}
       [SetText "updatedAt" ("최종 업데이트: " +:+ or_else (updated_at data) "-");
        SetText "totalCount"
          (Number_toString (Z.of_nat (length (items_of data))));
        SetText "upcomingCount"
          (Number_toString (Z.of_nat (count_status "접수예정" (items_of data))));
        SetText "openCount"
          (Number_toString (Z.of_nat (count_status "접수중" (items_of data))));
        SetText "maxProfit"
          (if (if (0 <? length (items_of data))%nat
               then Math_max (map maxProfitOf (items_of data))
               else 0) >? 0
           then formatMoney
                  (Present (if (0 <? length (items_of data))%nat
                            then Math_max (map maxProfitOf (items_of data))
                            else 0))
           else "-");
        SetCardList
          (cards_html (view Date_getTime (activeFilters st) (activeSort st)
                         (items_of data)))]).
Proof.
  intros Hok Hjson. unfold loadData. apply try_catch_Ok.
  rewrite (AppM_bind_Ok _ _ st st resp) by reflexivity.
  rewrite Hok. cbn [negb].
  rewrite (AppM_bind_Ok _ _ st st (Present data)) by (rewrite Hjson; reflexivity).
  rewrite items_of_or_else.
  set (st1 := {| allItems := items_of data;
                 activeFilters := activeFilters st;
                 activeSort := activeSort st;
                 location_hash := location_hash st;
                 effects := effects st |}).
  rewrite (AppM_bind_Ok _ _ st st1 tt) by reflexivity.
  rewrite (AppM_bind_Ok _ _ _ _ _ (emit_with_effects _ _)).
  rewrite (AppM_bind_Ok _ _ _ _ _ (updateSummary_spec _ _)).
  rewrite renderCards_spec, !with_effects_app. reflexivity.
Qed.

(** [loadData] writes to the tiles, the card list and the console only. *)
Lemma loadData_card_side (fetched : exn + Response) (st : AppState) :
  exists st',
    loadData Date_getTime fetched st = (Ok tt, st')
    /\ overlay_active (effects st') = overlay_active (effects st)
    /\ body_overflow (effects st') = body_overflow (effects st)
    /\ detail_panel (effects st') = detail_panel (effects st)
    /\ pushes (effects st') = pushes (effects st)
    /\ location_hash st' = location_hash st.
Proof.
  assert (Hfailed : forall e,
    loadData Date_getTime fetched st
    = (Ok tt, with_effects st [ConsoleError e; SetCardList LoadFailedState]) ->
    exists st',
      loadData Date_getTime fetched st = (Ok tt, st')
      /\ overlay_active (effects st') = overlay_active (effects st)
      /\ body_overflow (effects st') = body_overflow (effects st)
      /\ detail_panel (effects st') = detail_panel (effects st)
      /\ pushes (effects st') = pushes (effects st)
      /\ location_hash st' = location_hash st).
  { intros e He. eexists. split; [exact He|].
    repeat split; page_views; try reflexivity. unfold pushes; simpl; lia. }
  destruct (snapshot_unavailable fetched) eqn:Hfail.
  - destruct (load_failure Date_getTime fetched st Hfail) as (e & He & _). eauto.
  - destruct fetched as [e|resp]; [discriminate|]. simpl in Hfail.
    apply orb_false_iff in Hfail as [Hok Hjson].
    apply negb_false_iff in Hok.
    destruct (resp_json resp) as [e|data] eqn:Hdata; [discriminate|].
    destruct data as [| |data].
    + destruct (load_null_document Date_getTime resp Undefined st Hok Hdata)
        as (e & He); eauto.
    + destruct (load_null_document Date_getTime resp Null st Hok Hdata)
        as (e & He); eauto.
    + eexists. split; [apply (loadData_success_spec resp data st Hok Hdata)|].
      repeat split; page_views; try reflexivity. unfold pushes; simpl; lia.
Qed.

Lemma with_hash_same (st : AppState) : with_hash st (location_hash st) = st.
Proof. destruct st; reflexivity. Qed.

(** What a change of the fragment can lead to. *)
Lemma hashchange_cases (newHash : string) (st : AppState) :
  hashchange newHash st
  = (Ok tt,
     if startsWith newHash "#detail/" then
       match List.find
               (fun i => String.eqb (id i)
                           (String_drop (String.length "#detail/") newHash))
               (allItems st) with
       | Some item =>
           with_effects (with_hash st newHash)
             [SetDetailPanel item; OverlayActive true; BodyOverflow "hidden"]
       | None => with_hash st newHash
       end
     else
       with_effects (with_hash st newHash)
         [OverlayActive false; BodyOverflow EmptyString]).
Proof.
  rewrite hashchange_spec, handleHashChange_spec. cbn [location_hash with_hash].
  destruct (startsWith newHash "#detail/") eqn:H.
  - rewrite openDetail_spec. reflexivity.
  - rewrite closeDetail_spec. cbn [location_hash with_hash]. now rewrite H.
Qed.

(** The three properties of the page that every handler keeps. *)
Lemma closeDetail_keeps (st : AppState) :
  exists st',
    closeDetail st = (Ok tt, st')
    /\ allItems st' = allItems st
    /\ activeFilters st' = activeFilters st
    /\ activeSort st' = activeSort st
    /\ scroll_lock_matches_overlay st'
    /\ overlay_under_detail_fragment st'
    /\ panel_shows_loaded_listing st'.
Proof.
  eexists. split; [apply closeDetail_spec|].
  unfold scroll_lock_matches_overlay, overlay_under_detail_fragment,
    panel_shows_loaded_listing.
  destruct (startsWith (location_hash st) "#detail/");
    repeat split; page_views; try reflexivity; discriminate.
Qed.

Lemma hashchange_keeps (newHash : string) (st : AppState) :
  exists st',
    hashchange newHash st = (Ok tt, st')
    /\ allItems st' = allItems st
    /\ activeFilters st' = activeFilters st
    /\ activeSort st' = activeSort st
    /\ (scroll_lock_matches_overlay st -> scroll_lock_matches_overlay st')
    /\ overlay_under_detail_fragment st'
    /\ (panel_shows_loaded_listing st -> panel_shows_loaded_listing st').
Proof.
  eexists. split; [apply hashchange_cases|].
  unfold scroll_lock_matches_overlay, overlay_under_detail_fragment,
    panel_shows_loaded_listing.
  destruct (startsWith newHash "#detail/") eqn:Hdetail.
  - destruct (List.find _ (allItems st)) as [item|] eqn:Hfind.
    + apply find_by_id in Hfind as [Hin _].
      repeat split; page_views; try reflexivity; try (intros; assumption).
      intros _ _. eauto.
    + repeat split; page_views; try reflexivity; try (intros; assumption); auto.
  - repeat split; page_views; try reflexivity; discriminate.
Qed.

Lemma card_write_keeps (st : AppState) (f : Filters) (s : string)
    (html : CardListHTML) :
  let st' := with_effects
               {| allItems := allItems st;
                  activeFilters := f;
                  activeSort := s;
                  location_hash := location_hash st;
                  effects := effects st |} [SetCardList html] in
  (scroll_lock_matches_overlay st -> scroll_lock_matches_overlay st')
  /\ (overlay_under_detail_fragment st -> overlay_under_detail_fragment st')
  /\ (panel_shows_loaded_listing st -> panel_shows_loaded_listing st').
Proof.
  unfold scroll_lock_matches_overlay, overlay_under_detail_fragment,
    panel_shows_loaded_listing.
  cbv zeta. repeat split; page_views; auto.
Qed.

Lemma dispatch_keeps (ev : Event) (st : AppState) :
  exists st',
    dispatch Date_getTime ev st = (Ok tt, st')
    /\ allItems st' = allItems st
    /\ (is_FilterClick ev = false -> activeFilters st' = activeFilters st)
    /\ (is_SortChange ev = false -> activeSort st' = activeSort st)
    /\ (scroll_lock_matches_overlay st -> scroll_lock_matches_overlay st')
    /\ (overlay_under_detail_fragment st -> overlay_under_detail_fragment st')
    /\ (panel_shows_loaded_listing st -> panel_shows_loaded_listing st').
Proof.
  assert (Hclose : exists st',
    closeDetail st = (Ok tt, st')
    /\ allItems st' = allItems st
    /\ (is_FilterClick ev = false -> activeFilters st' = activeFilters st)
    /\ (is_SortChange ev = false -> activeSort st' = activeSort st)
    /\ (scroll_lock_matches_overlay st -> scroll_lock_matches_overlay st')
    /\ (overlay_under_detail_fragment st -> overlay_under_detail_fragment st')
    /\ (panel_shows_loaded_listing st -> panel_shows_loaded_listing st')).
  { destruct (closeDetail_keeps st) as (st' & H & ? & ? & ? & ? & ? & ?).
    exists st'. repeat split; auto. }
  assert (Hhash : forall h, exists st',
    hashchange h st = (Ok tt, st')
    /\ allItems st' = allItems st
    /\ (is_FilterClick ev = false -> activeFilters st' = activeFilters st)
    /\ (is_SortChange ev = false -> activeSort st' = activeSort st)
    /\ (scroll_lock_matches_overlay st -> scroll_lock_matches_overlay st')
    /\ (overlay_under_detail_fragment st -> overlay_under_detail_fragment st')
    /\ (panel_shows_loaded_listing st -> panel_shows_loaded_listing st')).
  { intros h.
    destruct (hashchange_keeps h st) as (st' & H & ? & ? & ? & ? & ? & ?).
    exists st'. repeat split; auto. }
  assert (Hstay : exists st',
    (mret tt : AppM unit) st = (Ok tt, st')
    /\ allItems st' = allItems st
    /\ (is_FilterClick ev = false -> activeFilters st' = activeFilters st)
    /\ (is_SortChange ev = false -> activeSort st' = activeSort st)
    /\ (scroll_lock_matches_overlay st -> scroll_lock_matches_overlay st')
    /\ (overlay_under_detail_fragment st -> overlay_under_detail_fragment st')
    /\ (panel_shows_loaded_listing st -> panel_shows_loaded_listing st')).
  { exists st. repeat split; auto. }
  destruct ev as [filterType value|value|onBackdrop|key| |card_id|newHash];
    cbn [dispatch].
  - eexists. split; [rewrite filterClick_spec; apply renderCards_spec|].
    cbn [activeFilters activeSort allItems location_hash].
    split; [reflexivity|]. split; [discriminate|]. split; [reflexivity|].
    apply card_write_keeps.
  - eexists. split; [rewrite sortChange_spec; apply renderCards_spec|].
    cbn [activeFilters activeSort allItems location_hash].
    split; [reflexivity|]. split; [reflexivity|]. split; [discriminate|].
    apply card_write_keeps.
  - unfold overlayClick. destruct onBackdrop; assumption.
  - unfold keyDown. destruct (String.eqb key "Escape"); assumption.
  - assumption.
  - unfold cardClick. rewrite bind_get_state. cbv zeta.
    destruct (String.eqb (location_hash st)
                (assigned_hash ("#detail/" +:+ card_id)));
      [assumption | apply Hhash].
  - apply Hhash.
Qed.

Lemma dispatch_all_keeps (evs : list Event) (st : AppState) :
  exists st',
    dispatch_all Date_getTime evs st = (Ok tt, st')
    /\ allItems st' = allItems st
    /\ (forallb (fun ev => negb (is_FilterClick ev)) evs = true ->
        activeFilters st' = activeFilters st)
    /\ (forallb (fun ev => negb (is_SortChange ev)) evs = true ->
        activeSort st' = activeSort st)
    /\ (scroll_lock_matches_overlay st -> scroll_lock_matches_overlay st')
    /\ (overlay_under_detail_fragment st -> overlay_under_detail_fragment st')
    /\ (panel_shows_loaded_listing st -> panel_shows_loaded_listing st').
Proof.
  revert st. induction evs as [|ev evs IH]; intros st.
  - exists st. repeat split; auto.
  - destruct (dispatch_keeps ev st) as (st1 & H1 & Ha1 & Hf1 & Hs1 & Hi1 & Hj1 & Hk1).
    destruct (IH st1) as (st2 & H2 & Ha2 & Hf2 & Hs2 & Hi2 & Hj2 & Hk2).
    exists st2. split.
    { cbn [dispatch_all]. now rewrite (AppM_bind_Ok _ _ _ _ _ H1). }
    split; [congruence|].
    cbn [forallb]. rewrite !andb_true_iff, !negb_true_iff.
    repeat split; try (intros [? ?]; rewrite Hf2, ?Hf1 by assumption; reflexivity);
      try (intros [? ?]; rewrite Hs2, ?Hs1 by assumption; reflexivity); auto.
Qed.

Lemma init_keeps (fetched : exn + Response) (hash : string) :
  exists st',
    init Date_getTime fetched (initial_state hash) = (Ok tt, st')
    /\ scroll_lock_matches_overlay st'
    /\ overlay_under_detail_fragment st'
    /\ panel_shows_loaded_listing st'.
Proof.
  destruct (loadData_card_side fetched (initial_state hash))
    as (st1 & Hload & Hov & Hbody & Hpanel & _ & Hhash).
  destruct (hashchange_keeps (location_hash st1) st1)
    as (st2 & Hchange & _ & _ & _ & Hi & Hj & Hk).
  rewrite hashchange_spec, with_hash_same in Hchange.
  exists st2. split.
  { unfold init. now rewrite (AppM_bind_Ok _ _ _ _ _ Hload). }
  cbn [effects initial_state] in Hov, Hbody, Hpanel.
  split; [|split; [exact Hj|]].
  - apply Hi. unfold scroll_lock_matches_overlay. now rewrite Hov, Hbody.
  - apply Hk. unfold panel_shows_loaded_listing. rewrite Hov. discriminate.
Qed.

Lemma page_after_keeps (fetched : exn + Response) (hash : string)
    (evs : list Event) :
  scroll_lock_matches_overlay (page_after Date_getTime fetched hash evs)
  /\ overlay_under_detail_fragment (page_after Date_getTime fetched hash evs)
  /\ panel_shows_loaded_listing (page_after Date_getTime fetched hash evs).
Proof.
  destruct (init_keeps fetched hash) as (st1 & Hinit & Hi & Hj & Hk).
  destruct (dispatch_all_keeps evs st1) as (st2 & Hall & _ & _ & _ & Hi2 & Hj2 & Hk2).
  unfold page_after. rewrite (AppM_bind_Ok _ _ _ _ _ Hinit), Hall.
  cbn [snd]. auto.
Qed.
End LifeFacts.

Section LifeTheorems.
Variable Date_getTime : string -> option Z.

(** X13: no event handler throws, and none assigns [allItems]: after any
    sequence of filter clicks, sort changes, overlay clicks, key presses,
    close-button clicks, card clicks and fragment changes the loaded listings
    are the ones that were loaded.  The filters change only by a filter
    click, the sort key only by a change of the sort select. *)
Theorem events_never_touch_the_store (evs : list Event) (st : AppState) :
  exists st' : AppState,
    dispatch_all Date_getTime evs st = (Ok tt, st')
    /\ allItems st' = allItems st
    /\ (forallb (fun ev => negb (is_FilterClick ev)) evs = true ->
        activeFilters st' = activeFilters st)
    /\ (forallb (fun ev => negb (is_SortChange ev)) evs = true ->
        activeSort st' = activeSort st).
Proof.
  destruct (dispatch_all_keeps Date_getTime evs st)
    as (st' & H & Ha & Hf & Hs & _).
  exists st'. auto.
Qed.

(** X14: the page scroll is suspended exactly while the overlay is open:
    [body.style.overflow] is [hidden] when the overlay is active and empty
    when it is not.  Every sequence of events keeps this, and it holds from
    page load on, however the fetch settles and whatever the fragment is. *)
Theorem scroll_lock_follows_overlay (evs : list Event) :
  (forall st : AppState,
      scroll_lock_matches_overlay st ->
      scroll_lock_matches_overlay (snd (dispatch_all Date_getTime evs st)))
  /\ (forall (fetched : exn + Response) (hash : string),
        scroll_lock_matches_overlay (page_after Date_getTime fetched hash evs)).
Proof.
  split.
  - intros st Hst.
    destruct (dispatch_all_keeps Date_getTime evs st)
      as (st' & -> & _ & _ & _ & Hi & _). auto.
  - intros fetched hash. apply page_after_keeps.
Qed.

(** X15: the overlay is open only under a detail fragment: whenever the
    overlay is active, [location.hash] starts with [#detail/].  Every
    sequence of events keeps this, and it holds from page load on. *)
Theorem overlay_open_only_under_detail_fragment (evs : list Event) :
  (forall st : AppState,
      overlay_under_detail_fragment st ->
      overlay_under_detail_fragment (snd (dispatch_all Date_getTime evs st)))
  /\ (forall (fetched : exn + Response) (hash : string),
        overlay_under_detail_fragment (page_after Date_getTime fetched hash evs)).
Proof.
  split.
  - intros st Hst.
    destruct (dispatch_all_keeps Date_getTime evs st)
      as (st' & -> & _ & _ & _ & _ & Hj & _). auto.
  - intros fetched hash. apply page_after_keeps.
Qed.

(** X16: while the overlay is open, the detail panel shows one of the loaded
    listings.  Every sequence of events keeps this, and it holds from page
    load on. *)
Theorem open_overlay_shows_a_loaded_listing (evs : list Event) :
  (forall st : AppState,
      panel_shows_loaded_listing st ->
      panel_shows_loaded_listing (snd (dispatch_all Date_getTime evs st)))
  /\ (forall (fetched : exn + Response) (hash : string),
        panel_shows_loaded_listing (page_after Date_getTime fetched hash evs)).
Proof.
  split.
  - intros st Hst.
    destruct (dispatch_all_keeps Date_getTime evs st)
      as (st' & -> & _ & _ & _ & _ & _ & Hk). auto.
  - intros fetched hash. apply page_after_keeps.
Qed.

(** X17: when the snapshot arrives (a success status and a body that parses
    to a document), [loadData] on the fresh page takes over the whole [items]
    array (none when the document has no [items]), writes the update stamp,
    which falls back to the dash when [updated_at] is missing or empty, then
    the four tiles, and draws the card list once, for the filters
    [upcoming]/[all] in the order [date-asc]; overlay, scroll and fragment
    are not touched. *)
Theorem loadData_success_draws_default_view (resp : Response)
    (data : Snapshot) (hash : string) :
  resp_ok resp = true ->
  resp_json resp = inr (Present data) ->
  exists (st' : AppState) (stamp : string),
    loadData Date_getTime (inr resp) (initial_state hash) = (Ok tt, st')
    /\ allItems st' = items_of data
    /\ effects st'
       = [SetText "updatedAt" ("최종 업데이트: " +:+ stamp)]
         ++ summary_tiles data
         ++ [SetCardList
               (cards_html (view Date_getTime initial_filters "date-asc"
                              (items_of data)))]
    /\ stamp = match updated_at data with
               | Present (String c s) => String c s
               | _ => "-"
               end
    /\ updateSummary data (initial_state hash)
       = (Ok tt, with_effects (initial_state hash) (summary_tiles data))
    /\ card_list (effects st')
       = Some (cards_html (view Date_getTime initial_filters "date-asc"
                             (items_of data)))
    /\ overlay_active (effects st') = false
    /\ body_overflow (effects st') = EmptyString
    /\ location_hash st' = hash
    /\ activeFilters st' = initial_filters
    /\ activeSort st' = "date-asc".
Proof.
  intros Hok Hjson. eexists. exists (or_else (updated_at data) "-").
  split; [apply (loadData_success_spec Date_getTime resp data _ Hok Hjson)|].
  split; [reflexivity|]. split; [reflexivity|]. split.
  { destruct (updated_at data) as [| |[|c s]]; reflexivity. }
  split; [apply updateSummary_spec|].
  repeat split.
Qed.

(** X18: a deep link is restored: when the snapshot arrives and the page was
    opened on [#detail/] followed by the id of a listing of the snapshot,
    [init] loads the listings, draws the card list and opens the overlay on
    the first listing with that id, with the page scroll suspended and the
    fragment kept. *)
Theorem init_restores_deep_link (resp : Response) (data : Snapshot)
    (id' : string) (item : Listing) :
  resp_ok resp = true ->
  resp_json resp = inr (Present data) ->
  List.find (fun i => String.eqb (id i) id') (items_of data) = Some item ->
  exists st' : AppState,
    init Date_getTime (inr resp) (initial_state ("#detail/" +:+ id'))
    = (Ok tt, st')
    /\ allItems st' = items_of data
    /\ id item = id'
    /\ detail_panel (effects st') = Some item
    /\ overlay_active (effects st') = true
    /\ body_overflow (effects st') = "hidden"
    /\ location_hash st' = "#detail/" +:+ id'
    /\ card_list (effects st')
       = Some (cards_html (view Date_getTime initial_filters "date-asc"
                             (items_of data)))
    /\ pushes (effects st') = 0%nat.
Proof.
  intros Hok Hjson Hfind.
  pose proof (loadData_success_spec Date_getTime resp data
                (initial_state ("#detail/" +:+ id')) Hok Hjson) as Hload.
  eexists. split.
  { unfold init. rewrite (AppM_bind_Ok _ _ _ _ _ Hload).
    rewrite handleHashChange_spec.
    cbn [location_hash with_effects initial_state].
    rewrite startsWith_detail.
    replace (String_drop (String.length "#detail/") ("#detail/" +:+ id'))
      with id' by reflexivity.
    rewrite openDetail_spec. cbn [allItems with_effects].
    rewrite Hfind. reflexivity. }
  destruct (find_by_id _ _ _ Hfind) as [_ Hid].
  split; [reflexivity|]. split; [exact Hid|].
  repeat split.
Qed.

(** X19: when the snapshot cannot be had, [init] leaves the page with the
    warning in the card list and nothing else drawn: no listing is loaded, so
    a detail fragment opens no overlay, the panel stays empty, the fragment
    is kept and no history entry is pushed. *)
Theorem init_failed_load_opens_nothing (fetched : exn + Response)
    (hash : string) :
  snapshot_unavailable fetched = true ->
  exists st' : AppState,
    init Date_getTime fetched (initial_state hash) = (Ok tt, st')
    /\ allItems st' = []
    /\ card_list (effects st') = Some LoadFailedState
    /\ overlay_active (effects st') = false
    /\ body_overflow (effects st') = EmptyString
    /\ detail_panel (effects st') = None
    /\ location_hash st' = hash
    /\ pushes (effects st') = 0%nat.
Proof.
  intros Hfail.
  destruct (load_failure Date_getTime fetched (initial_state hash) Hfail)
    as (e & Hload & _).
  eexists. split.
  { unfold init. rewrite (AppM_bind_Ok _ _ _ _ _ Hload).
    rewrite <- (with_hash_same
                  (with_effects (initial_state hash)
                     [ConsoleError e; SetCardList LoadFailedState])) at 1.
    rewrite <- hashchange_spec. apply hashchange_cases. }
  cbn [location_hash with_effects initial_state allItems List.find].
  destruct (startsWith hash "#detail/"); repeat split.
Qed.
End LifeTheorems.

Lemma loadData_success_witness :
  let a := listing_of "A" "접수중" "서울" (Present 1) Undefined Undefined in
  let data := {| items := Present [a]; updated_at := Undefined |} in
  let resp := {| resp_status := 200; resp_json := inr (Present data) |} in
  resp_ok resp = true
  /\ resp_json resp = inr (Present data)
  /\ exists (st' : AppState) (stamp : string),
       loadData iso_getTime (inr resp) (initial_state EmptyString) = (Ok tt, st')
       /\ allItems st' = items_of data
       /\ effects st'
          = [SetText "updatedAt" ("최종 업데이트: " +:+ stamp)]
            ++ summary_tiles data
            ++ [SetCardList
                  (cards_html (view iso_getTime initial_filters "date-asc"
                                 (items_of data)))]
       /\ stamp = match updated_at data with
                  | Present (String c s) => String c s
                  | _ => "-"
                  end
       /\ updateSummary data (initial_state EmptyString)
          = (Ok tt, with_effects (initial_state EmptyString) (summary_tiles data))
       /\ card_list (effects st')
          = Some (cards_html (view iso_getTime initial_filters "date-asc"
                                (items_of data)))
       /\ overlay_active (effects st') = false
       /\ body_overflow (effects st') = EmptyString
       /\ location_hash st' = EmptyString
       /\ activeFilters st' = initial_filters
       /\ activeSort st' = "date-asc".
Proof.
  intros a data resp. split; [reflexivity|]. split; [reflexivity|].
  apply (loadData_success_draws_default_view iso_getTime resp data EmptyString);
    reflexivity.
Defined.

Lemma init_restores_deep_link_witness :
  let a := listing_of "A" "접수중" "서울" (Present 1) Undefined Undefined in
  let b := listing_of "B" "접수마감" "부산" (Present 2) Undefined Undefined in
  let data := {| items := Present [a; b]; updated_at := Present "2024-05-01" |} in
  let resp := {| resp_status := 200; resp_json := inr (Present data) |} in
  resp_ok resp = true
  /\ resp_json resp = inr (Present data)
  /\ List.find (fun i => String.eqb (id i) "B") (items_of data) = Some b
  /\ exists st' : AppState,
       init iso_getTime (inr resp) (initial_state ("#detail/" +:+ "B"))
       = (Ok tt, st')
       /\ allItems st' = items_of data
       /\ id b = "B"
       /\ detail_panel (effects st') = Some b
       /\ overlay_active (effects st') = true
       /\ body_overflow (effects st') = "hidden"
       /\ location_hash st' = "#detail/" +:+ "B"
       /\ card_list (effects st')
          = Some (cards_html (view iso_getTime initial_filters "date-asc"
                                (items_of data)))
       /\ pushes (effects st') = 0%nat.
Proof.
  intros a b data resp.
  split; [reflexivity|]. split; [reflexivity|]. split; [reflexivity|].
  apply (init_restores_deep_link iso_getTime resp data "B" b); reflexivity.
Defined.

Lemma init_failed_load_witness :
  let fetched : exn + Response := inl (Rejection "Failed to fetch") in
  snapshot_unavailable fetched = true
  /\ exists st' : AppState,
       init iso_getTime fetched (initial_state "#detail/A") = (Ok tt, st')
       /\ allItems st' = []
       /\ card_list (effects st') = Some LoadFailedState
       /\ overlay_active (effects st') = false
       /\ body_overflow (effects st') = EmptyString
       /\ detail_panel (effects st') = None
       /\ location_hash st' = "#detail/A"
       /\ pushes (effects st') = 0%nat.
Proof.
  intros fetched. split; [reflexivity|].
  apply (init_failed_load_opens_nothing iso_getTime fetched "#detail/A").
  reflexivity.
Defined.

(** ** Sorting and filtering, further *)

Lemma filter_swap {A} (p q : A -> bool) (l : list A) :
  List.filter p (List.filter q l) = List.filter q (List.filter p l).
Proof.
  induction l as [|x l IH]; [reflexivity|]. cbn [List.filter].
  destruct (p x) eqn:Hp, (q x) eqn:Hq; cbn [List.filter];
    rewrite ?Hp, ?Hq, IH; reflexivity.
Qed.

Lemma StronglySorted_filter {A} (R : A -> A -> Prop) (p : A -> bool)
    (l : list A) :
  StronglySorted R l -> StronglySorted R (List.filter p l).
Proof.
  induction 1 as [|x l Hs IH Hx]; cbn [List.filter]; [constructor|].
  destruct (p x); [|assumption]. constructor; [assumption|].
  rewrite List.Forall_forall in *. intros y Hy.
  apply List.filter_In in Hy as [Hy _]. auto.
Qed.

Lemma Array_sort_filter {A} (compareFn : A -> A -> Z) (key : A -> Z)
    (p : A -> bool) (l : list A) :
  (forall a b, compareFn a b = key a - key b) ->
  Array_sort compareFn (List.filter p l)
  = List.filter p (Array_sort compareFn l).
Proof.
  intros Hkey. symmetry.
  apply (Array_sort_characterised compareFn key Hkey).
  - apply StronglySorted_filter, (Array_sort_ascending compareFn key Hkey).
  - intros k. rewrite filter_swap, (Array_sort_stable compareFn key Hkey).
    apply filter_swap.
Qed.

Section SortTheorems.
Variable Date_getTime : string -> option Z.

(** X20: whatever the value of the sort select, sorting only rearranges: the
    result has the items of the input, each as often as the input; sorting
    what is sorted changes nothing; and a value that is none of the four
    sort keys leaves the order as it is. *)
Theorem applySort_only_rearranges (activeSort : string)
    (items : list Listing) :
  Permutation (applySort Date_getTime activeSort items) items
  /\ length (applySort Date_getTime activeSort items) = length items
  /\ (forall item,
        In item (applySort Date_getTime activeSort items) <-> In item items)
  /\ applySort Date_getTime activeSort (applySort Date_getTime activeSort items)
     = applySort Date_getTime activeSort items
  /\ (activeSort <> "profit-desc" -> activeSort <> "profit-asc" ->
      activeSort <> "date-asc" -> activeSort <> "date-desc" ->
      applySort Date_getTime activeSort items = items).
Proof.
  pose proof (applySort_perm Date_getTime activeSort items) as Hperm.
  split; [exact Hperm|]. split; [now apply Permutation_length|]. split.
  { intros item. split; apply Permutation_in;
      [exact Hperm | now apply Permutation_sym]. }
  split; [apply applySort_idempotent|].
  intros H1 H2 H3 H4. unfold applySort.
  apply String.eqb_neq in H1, H2, H3, H4. now rewrite H1, H2, H3, H4.
Qed.

(** X21: the three other sort keys are stable too.  [profit-asc] leaves
    the profits (a missing one counted as 0) non-decreasing and the listings
    of any one profit in their input order; [date-asc] and [date-desc] leave
    the listings of any one date key in their input order. *)
Theorem applySort_other_keys_stable (items : list Listing) :
  StronglySorted (ascending_by maxProfitKey)
    (applySort Date_getTime "profit-asc" items)
  /\ (forall k : Z,
        List.filter (fun i => maxProfitKey i =? k)
          (applySort Date_getTime "profit-asc" items)
        = List.filter (fun i => maxProfitKey i =? k) items)
  /\ (forall k : Z,
        List.filter (fun i => bestDate Date_getTime i =? k)
          (applySort Date_getTime "date-asc" items)
        = List.filter (fun i => bestDate Date_getTime i =? k) items)
  /\ (forall k : Z,
        List.filter (fun i => bestDate Date_getTime i =? k)
          (applySort Date_getTime "date-desc" items)
        = List.filter (fun i => bestDate Date_getTime i =? k) items).
Proof.
  split; [|split; [|split]].
  - change (applySort Date_getTime "profit-asc" items)
      with (Array_sort (fun a b => maxProfitOf a - maxProfitOf b) items).
    eapply StronglySorted_weaken;
      [|apply (Array_sort_ascending _ maxProfitOf); reflexivity].
    unfold ascending_by. intros a b. now rewrite !maxProfitOf_key.
  - intros k.
    change (applySort Date_getTime "profit-asc" items)
      with (Array_sort (fun a b => maxProfitOf a - maxProfitOf b) items).
    rewrite !(List.filter_ext (fun i => maxProfitKey i =? k)
                (fun i => maxProfitOf i =? k))
      by (intros i; now rewrite maxProfitOf_key).
    apply Array_sort_stable. reflexivity.
  - intros k.
    change (applySort Date_getTime "date-asc" items)
      with (Array_sort (fun a b => bestDate Date_getTime a - bestDate Date_getTime b)
              items).
    apply Array_sort_stable. reflexivity.
  - intros k.
    change (applySort Date_getTime "date-desc" items)
      with (Array_sort (fun a b => bestDate Date_getTime b - bestDate Date_getTime a)
              items).
    pose proof (Array_sort_stable
                  (fun a b => bestDate Date_getTime b - bestDate Date_getTime a)
                  (fun a => - bestDate Date_getTime a)
                  ltac:(intros; simpl; lia) (- k) items) as H.
    assert (Hext : forall i : Listing,
               (bestDate Date_getTime i =? k) = (- bestDate Date_getTime i =? - k)).
    { intros i.
      destruct (Z.eqb_spec (bestDate Date_getTime i) k),
               (Z.eqb_spec (- bestDate Date_getTime i) (- k));
        try reflexivity; lia. }
    rewrite !(List.filter_ext _ _ Hext). exact H.
Qed.

(** X22: filtering and sorting commute: sorting the filtered listings gives
    the same sequence as filtering the sorted ones, for every filter state
    and every value of the sort select. *)
Theorem filter_and_sort_commute (activeFilters : Filters)
    (activeSort : string) (items : list Listing) :
  applySort Date_getTime activeSort (applyFilters activeFilters items)
  = applyFilters activeFilters (applySort Date_getTime activeSort items).
Proof.
  unfold applyFilters.
  destruct (applySort_shape Date_getTime activeSort)
    as [(c & k & Hk & H)|H]; rewrite !H; [|reflexivity].
  now apply (Array_sort_filter c k).
Qed.
End SortTheorems.

(** X23: the profit of the best model does not depend on the order of the
    models: two arrays with the same models in any order have best models of
    the same profit (a missing profit counted as 0), or both have none. *)
Theorem getBestModel_profit_order_independent (ms ms' : list Model) :
  Permutation ms ms' ->
  match getBestModel (Present ms), getBestModel (Present ms') with
  | Some best, Some best' => profitKey best = profitKey best'
  | None, None => ms = [] /\ ms' = []
  | _, _ => False
  end.
Proof.
  intros Hperm.
  destruct ms as [|m0 ms], ms' as [|m0' ms'].
  - split; reflexivity.
  - apply Permutation_nil in Hperm. discriminate.
  - apply Permutation_sym, Permutation_nil in Hperm. discriminate.
  - destruct (getBestModel_scan m0 ms) as (i & best & -> & Hi & _ & Hle).
    destruct (getBestModel_scan m0' ms') as (i' & best' & -> & Hi' & _ & Hle').
    assert (In best (m0' :: ms')) as Hin.
    { apply (Permutation_in _ Hperm), list_elem_of_In, list_elem_of_lookup. eauto. }
    assert (In best' (m0 :: ms)) as Hin'.
    { apply (Permutation_in _ (Permutation_sym Hperm)), list_elem_of_In,
        list_elem_of_lookup. eauto. }
    apply list_elem_of_In, list_elem_of_lookup in Hin as [j Hj].
    apply list_elem_of_In, list_elem_of_lookup in Hin' as [j' Hj'].
    specialize (Hle' j best Hj). specialize (Hle j' best' Hj'). lia.
Qed.

Lemma getBestModel_profit_witness :
  let a := model_of "A" (Present 5) in
  let b := model_of "B" (Present 9) in
  let c := model_of "C" (Present 9) in
  Permutation [a; b; c] [c; a; b]
  /\ match getBestModel (Present [a; b; c]), getBestModel (Present [c; a; b]) with
     | Some best, Some best' => profitKey best = profitKey best'
     | None, None => [a; b; c] = [] /\ [c; a; b] = []
     | _, _ => False
     end.
Proof.
  intros a b c.
  assert (Hperm : Permutation [a; b; c] [c; a; b]).
  { apply Permutation_sym.
    apply (Permutation_cons_app [a; b] [] c). apply Permutation_refl. }
  split; [exact Hperm|].
  exact (getBestModel_profit_order_independent [a; b; c] [c; a; b] Hperm).
Defined.

(** ** What a card says about the profit *)

Lemma pretty_N_char_digit (d : N) (s : string) :
  starts_with_digit (String (pretty_N_char d) s) = true.
Proof. unfold pretty_N_char. repeat case_match; reflexivity. Qed.

Lemma pretty_N_go_digit (x : N) (s : string) :
  (0 < x)%N -> starts_with_digit (pretty_N_go x s) = true.
Proof.
  revert s. induction (N.lt_wf_0 x) as [x _ IH]; intros s Hx.
  rewrite pretty_N_go_step by assumption.
  destruct (N.eq_dec (x `div` 10)%N 0%N) as [->|Hdiv].
  - rewrite pretty_N_go_0. apply pretty_N_char_digit.
  - apply IH; [apply N.div_lt; lia | now apply N.neq_0_lt_0].
Qed.

Lemma Number_toString_digit (n : Z) :
  0 <= n -> starts_with_digit (Number_toString n) = true.
Proof.
  intros Hn. destruct n as [|p|p]; [reflexivity| |lia].
  unfold Number_toString, pretty, pretty_Z, pretty, pretty_positive, pretty,
    pretty_N.
  destruct (decide (N.pos p = 0%N)); [discriminate|].
  apply pretty_N_go_digit. lia.
Qed.

(** Grouping leaves the most significant digit in front. *)
Lemma group3_last (m : list ascii) (c : ascii) :
  exists m', group3 (m ++ [c]) = m' ++ [c].
Proof.
  assert (H : forall n m, (length m <= n)%nat ->
                          exists m', group3 (m ++ [c]) = m' ++ [c]).
  { clear m. induction n as [|n IH]; intros m Hn.
    - destruct m; [exists []; reflexivity | simpl in Hn; lia].
    - destruct m as [|a [|b [|d rest]]].
      + exists []. reflexivity.
      + exists [a]. reflexivity.
      + exists [a; b]. reflexivity.
      + destruct (IH rest ltac:(simpl in Hn; lia)) as (m' & Hm').
        exists (a :: b :: d :: ","%char :: m').
        change ((a :: b :: d :: rest) ++ [c]) with (a :: b :: d :: (rest ++ [c])).
        destruct (rest ++ [c]) as [|e rest'] eqn:Hrest.
        { destruct rest; discriminate. }
        change (group3 (a :: b :: d :: e :: rest'))
          with (a :: b :: d :: ","%char :: group3 (e :: rest')).
        now rewrite Hm'. }
  apply (H (length m)). lia.
Qed.

Lemma group_digits_digit (s : string) :
  starts_with_digit s = true -> starts_with_digit (group_digits s) = true.
Proof.
  destruct s as [|c s]; [discriminate|]. cbn [starts_with_digit]. intros Hc.
  unfold group_digits. cbn [list_ascii_of_string rev].
  destruct (group3_last (rev (list_ascii_of_string s)) c) as (m' & ->).
  rewrite rev_app_distr. exact Hc.
Qed.

Lemma toLocaleString_digit (n : Z) :
  0 <= n -> starts_with_digit (toLocaleString n) = true.
Proof.
  intros Hn. unfold toLocaleString.
  destruct (Z.ltb_spec n 0); [lia|].
  now apply group_digits_digit, Number_toString_digit.
Qed.

Lemma starts_with_digit_app (s t : string) :
  starts_with_digit s = true -> starts_with_digit (s +:+ t) = true.
Proof. destruct s; [discriminate | intros H; exact H]. Qed.

Lemma abbreviate_digit (m : Z) :
  0 <= m -> starts_with_digit (abbreviate m) = true.
Proof.
  intros Hm. unfold abbreviate.
  destruct (decide (100000000 <= m)).
  - apply starts_with_digit_app, Number_toString_digit. apply Z.div_pos; lia.
  - destruct (decide (10000 <= m));
      apply starts_with_digit_app, toLocaleString_digit;
      [apply Z.div_pos|]; lia.
Qed.

Lemma formatMoney_digit (z : Z) :
  0 <= z -> starts_with_digit (formatMoney (Present z)) = true.
Proof.
  intros Hz. rewrite formatMoney_eq_rule. unfold formatMoney_rule.
  destruct (decide (z < 0)); [lia|]. cbn [append].
  rewrite Z.abs_eq by assumption. now apply abbreviate_digit.
Qed.

(** X24: the profit line of a card never shows a negative amount and never
    the dash: it is the placeholder 시세 분석중 exactly when [max_profit] is
    missing, [null], zero or negative, and otherwise the formatted positive
    amount, which begins with a digit. *)
Theorem createCard_profit_is_unsigned (item : Listing) :
  card_profit (createCard item) <> "-"
  /\ starts_with_minus (card_profit (createCard item)) = false
  /\ (card_profit (createCard item) = "시세 분석중" <-> maxProfitKey item <= 0)
  /\ (starts_with_digit (card_profit (createCard item)) = true
      <-> 0 < maxProfitKey item)
  /\ (gt_zero (max_profit item) = true <-> 0 < maxProfitKey item)
  /\ card_profit (createCard item)
     = (if gt_zero (max_profit item)
        then formatMoney (Present (maxProfitKey item)) else "시세 분석중").
Proof.
  unfold createCard, maxProfitKey. cbn [card_profit].
  destruct (max_profit item) as [| |z]; cbn [gt_zero].
  1, 2: repeat split; try discriminate; try reflexivity; lia.
  destruct (Z.gtb_spec z 0) as [Hpos|Hnpos].
  - pose proof (formatMoney_digit z ltac:(lia)) as Hdigit.
    destruct (formatMoney (Present z)) as [|c s] eqn:Hfm; [discriminate|].
    cbn [starts_with_digit] in Hdigit.
    apply andb_true_iff in Hdigit as [Hlo Hhi].
    apply Z.leb_le in Hlo, Hhi.
    assert (c <> "-"%char) as Hminus.
    { intros ->. vm_compute in Hlo. contradiction. }
    split; [intros [= ? _]; contradiction|].
    split; [cbn [starts_with_minus]; now apply Ascii.eqb_neq|].
    split.
    { split; [|lia]. intros [= -> _]. vm_compute in Hhi. contradiction. }
    split.
    { split; [lia|]. intros _. cbn [starts_with_digit].
      apply andb_true_iff. split; now apply Z.leb_le. }
    split; [split; [lia | reflexivity] | reflexivity].
  - repeat split; try discriminate; try reflexivity; try lia.
Qed.

(** ** Filtering, further *)

Lemma filter_sublist {A} (p : A -> bool) (l : list A) :
  sublist (List.filter p l) l.
Proof.
  induction l as [|x l IH]; cbn [List.filter]; [constructor|].
  destruct (p x); [now apply sublist_skip | now apply sublist_cons].
Qed.

Lemma filter_twice {A} (p : A -> bool) (l : list A) :
  List.filter p (List.filter p l) = List.filter p l.
Proof.
  apply filter_all_true. intros x Hx. now apply List.filter_In in Hx.
Qed.

(** X25: filtering only leaves listings out: the result keeps the input
    order and holds no listing the input does not hold; filtering the result
    again changes nothing; and every listing shown under a region or a status
    is also shown when that filter is set to [all]. *)
Theorem applyFilters_only_leaves_out (activeFilters : Filters)
    (items : list Listing) :
  sublist (applyFilters activeFilters items) items
  /\ (length (applyFilters activeFilters items) <= length items)%nat
  /\ applyFilters activeFilters (applyFilters activeFilters items)
     = applyFilters activeFilters items
  /\ sublist (applyFilters activeFilters items)
       (applyFilters {| filter_status := filter_status activeFilters;
                        filter_region := "all" |} items)
  /\ sublist (applyFilters activeFilters items)
       (applyFilters {| filter_status := "all";
                        filter_region := filter_region activeFilters |} items)
  /\ applyFilters activeFilters [] = [].
Proof.
  assert (Hnarrow : forall f g : Filters,
    (forall item, keep f item = true -> keep g item = true) ->
    sublist (applyFilters f items) (applyFilters g items)).
  { intros f g Hfg. unfold applyFilters.
    induction items as [|x l IH]; cbn [List.filter]; [constructor|].
    destruct (keep f x) eqn:Hf.
    - rewrite (Hfg x Hf). now apply sublist_skip.
    - destruct (keep g x); [now apply sublist_cons | assumption]. }
  split; [apply filter_sublist|]. split; [apply sublist_length, filter_sublist|].
  split; [apply filter_twice|]. split; [|split; [|reflexivity]].
  - apply Hnarrow. intros item. rewrite !keep_is_conjunction.
    cbn [filter_status filter_region]. unfold region_passes at 2.
    change (String.eqb "all" "all") with true.
    rewrite !andb_true_iff. intros [Hs _]. split; [exact Hs | reflexivity].
  - apply Hnarrow. intros item. rewrite !keep_is_conjunction.
    cbn [filter_status filter_region]. unfold status_passes at 2.
    change (String.eqb "all" "upcoming") with false.
    change (String.eqb "all" "all") with true.
    rewrite !andb_true_iff. intros [_ Hr]. split; [reflexivity | exact Hr].
Qed.
